(** * Particle roundness calculator (V11.py): crop editor, binarization,
      particle extraction, filtering and CSV export.

    A shallow embedding of the event handlers of [ImageCropDialog] and
    [CircularityCalculator].  Widget plumbing (layouts, cursors, views) is
    kept only as far as it carries data that the handlers read or write.

    Numbers.  Pixel coordinates, thresholds and indices are Python [int]s
    and are modelled by [Z].  Python [float]s are modelled by exact
    rationals ([Q]), extended with the two infinities and NaN where a value
    comes from [float(text)]: the comparisons the program makes follow
    IEEE 754 (every comparison with NaN is false), but the rounding of each
    arithmetic result to binary64 is not represented.

    OpenCV and Qt.  [cv2.threshold] is written out pixel by pixel from its
    documented semantics.  Contour tracing and contour measurement
    ([cv2.findContours], [cv2.arcLength], [cv2.contourArea], [cv2.moments])
    and Qt's image scaling are parameters of the development. *)

From Stdlib Require Import ZArith QArith Qround List Bool Ascii String Lia.
From Stdlib Require Import Sorting.Sorted.
From Stdlib Require DecimalString.
Import ListNotations.

Local Open Scope Z_scope.

(** ** Python floats *)

Module PyFloat.

(** The value of a Python [float]: a finite rational, an infinity or NaN. *)
Inductive pyfloat : Type :=
| PFin (q : Q)
| PInf
| NInf
| PNaN.

(** [x < y] on floats. *)
Definition py_lt (x y : pyfloat) : bool :=
  match x, y with
  | PNaN, _ | _, PNaN => false
  | PFin a, PFin b => negb (Qle_bool b a)
  | PFin _, PInf => true
  | PFin _, NInf => false
  | NInf, NInf => false
  | NInf, _ => true
  | PInf, _ => false
  end.

(** [x <= y] on floats. *)
Definition py_le (x y : pyfloat) : bool :=
  match x, y with
  | PNaN, _ | _, PNaN => false
  | PFin a, PFin b => Qle_bool a b
  | PFin _, PInf => true
  | PFin _, NInf => false
  | NInf, _ => true
  | PInf, PInf => true
  | PInf, _ => false
  end.

(** [x >= y] and [x > y] are the mirrored comparisons. *)
Definition py_ge (x y : pyfloat) : bool := py_le y x.
Definition py_gt (x y : pyfloat) : bool := py_lt y x.

Definition py_zero : pyfloat := PFin 0.

(** *** [float(text)] on ASCII text

    Grammar of the Python documentation: optional surrounding white
    space, an optional sign, then [inf], [infinity], [nan] (any case) or
    a decimal number with optional fraction and exponent; underscores
    are allowed between digits.  [None] stands for [ValueError]. *)

Definition is_space (c : ascii) : bool :=
  let n := nat_of_ascii c in
  (Nat.eqb n 32 || (Nat.leb 9 n && Nat.leb n 13)
   || (Nat.leb 28 n && Nat.leb n 31))%bool.

Definition is_digit (c : ascii) : bool :=
  let n := nat_of_ascii c in (Nat.leb 48 n && Nat.leb n 57)%bool.

Definition digit_val (c : ascii) : Z := Z.of_nat (nat_of_ascii c) - 48.

Definition lower (c : ascii) : ascii :=
  let n := nat_of_ascii c in
  if (Nat.leb 65 n && Nat.leb n 90)%bool then ascii_of_nat (n + 32) else c.

Fixpoint lstrip (s : list ascii) : list ascii :=
  match s with
  | c :: s' => if is_space c then lstrip s' else s
  | [] => []
  end.

Definition strip (s : list ascii) : list ascii :=
  rev (lstrip (rev (lstrip s))).

(** The rest of a digit part, after a digit: [acc] is the number read so
    far and [n] the count of its digits. *)
Fixpoint digits_tail (acc : Z) (n : Z) (s : list ascii)
  : Z * Z * list ascii :=
  match s with
  | c :: s' =>
      if is_digit c then digits_tail (acc * 10 + digit_val c) (n + 1) s'
      else if Ascii.eqb c "_" then
        match s' with
        | d :: s'' =>
            if is_digit d
            then digits_tail (acc * 10 + digit_val d) (n + 1) s''
            else (acc, n, s)
        | [] => (acc, n, s)
        end
      else (acc, n, s)
  | [] => (acc, n, s)
  end.

(** [digitpart ::= digit (["_"] digit)*], continuing the number [acc]. *)
Definition digitpart (acc : Z) (s : list ascii)
  : option (Z * Z * list ascii) :=
  match s with
  | c :: s' =>
      if is_digit c then Some (digits_tail (acc * 10 + digit_val c) 1 s')
      else None
  | [] => None
  end.

(** [number ::= [digitpart] "." digitpart | digitpart ["."]]: the digits
    read as one integer, and how many of them follow the point. *)
Definition number (s : list ascii) : option (Z * Z * list ascii) :=
  match digitpart 0 s with
  | Some (i, _, r) =>
      match r with
      | c :: r' =>
          if Ascii.eqb c "." then
            match digitpart i r' with
            | Some (m, nf, r'') => Some (m, nf, r'')
            | None => Some (i, 0, r')
            end
          else Some (i, 0, r)
      | [] => Some (i, 0, r)
      end
  | None =>
      match s with
      | c :: r' =>
          if Ascii.eqb c "." then digitpart 0 r' else None
      | [] => None
      end
  end.

Definition sign (s : list ascii) : bool * list ascii :=
  match s with
  | c :: s' =>
      if Ascii.eqb c "-" then (true, s')
      else if Ascii.eqb c "+" then (false, s')
      else (false, s)
  | [] => (false, s)
  end.

(** [exponent ::= ("e" | "E") [sign] digitpart]; an absent exponent is 0.
    The whole remaining text must be consumed. *)
Definition exponent (s : list ascii) : option Z :=
  match s with
  | [] => Some 0
  | c :: s' =>
      if Ascii.eqb (lower c) "e" then
        let '(neg, s'') := sign s' in
        match digitpart 0 s'' with
        | Some (e, _, []) => Some (if neg then - e else e)
        | _ => None
        end
      else None
  end.

(** [m * 10^e] as a reduced fraction. *)
Definition scale10 (m e : Z) : Q :=
  if 0 <=? e then inject_Z (m * 10 ^ e)
  else Qred (Qmake m (Z.to_pos (10 ^ (- e)))).

Definition absfloatvalue (s : list ascii) : option pyfloat :=
  let l := List.map lower s in
  if list_eq_dec ascii_dec l (list_ascii_of_string "inf") then Some PInf
  else if list_eq_dec ascii_dec l (list_ascii_of_string "infinity")
  then Some PInf
  else if list_eq_dec ascii_dec l (list_ascii_of_string "nan")
  then Some PNaN
  else
    match number s with
    | Some (m, nf, r) =>
        match exponent r with
        | Some e => Some (PFin (scale10 m (e - nf)))
        | None => None
        end
    | None => None
    end.

Definition py_neg (x : pyfloat) : pyfloat :=
  match x with
  | PFin q => PFin (- q)%Q
  | PInf => NInf
  | NInf => PInf
  | PNaN => PNaN
  end.

(** [float(text)]. *)
Definition py_float (text : string) : option pyfloat :=
  let '(neg, s) := sign (strip (list_ascii_of_string text)) in
  match absfloatvalue s with
  | Some v => Some (if neg then py_neg v else v)
  | None => None
  end.

(** *** [round(x, 4)] and [int(x)] on finite floats *)

(** Nearest integer, ties to even. *)
Definition round_half_even (q : Q) : Z :=
  let f := Qfloor q in
  let d := (q - inject_Z f)%Q in
  match (d ?= 1 # 2)%Q with
  | Lt => f
  | Gt => f + 1
  | Eq => if Z.even f then f else f + 1
  end.

(** [round(x, 4)]: the decimal with four places nearest to [x]. *)
Definition round4 (q : Q) : Q :=
  Qred (Qmake (round_half_even (q * inject_Z 10000)%Q) 10000).

(** [int(x)]: truncation toward zero. *)
Definition py_int (q : Q) : Z := Z.quot (Qnum q) (Zpos (Qden q)).

End PyFloat.
Import PyFloat.

(** ** Images *)

Module Image.

(** A numpy pixel array: the list of its rows, top to bottom. *)
Definition image (P : Type) : Type := list (list P).

(** [img[y, x]]. *)
Definition pixel {P : Type} (img : image P) (x y : nat) : option P :=
  match nth_error img y with
  | Some row => nth_error row x
  | None => None
  end.

(** Single-channel 8-bit image and three-channel BGR image. *)
Definition gimage : Type := image Z.
Definition cimage : Type := image (Z * Z * Z).

(** [img.shape[:2]]: number of rows, and the length every row has. *)
Definition shape_h {P : Type} (img : image P) : Z := Z.of_nat (List.length img).
Definition shape_w {P : Type} (img : image P) : Z :=
  match img with
  | row :: _ => Z.of_nat (List.length row)
  | [] => 0
  end.

(** All rows have the width of the first one. *)
Definition rectangular {P : Type} (img : image P) : Prop :=
  Forall (fun row => Z.of_nat (List.length row) = shape_w img) img.

(** Every pixel of an 8-bit image lies in 0..255. *)
Definition is_8bit (img : gimage) : Prop :=
  Forall (Forall (fun v => 0 <= v <= 255)) img.

(** A Python slice [lo:hi] of a sequence of length [n], as the pair of
    start and stop positions after normalisation: a negative bound
    counts from the end, and both are clipped to [0, n]. *)
Definition slice_bound (n i : Z) : Z :=
  let j := if i <? 0 then i + n else i in
  Z.max 0 (Z.min j n).

Definition py_slice {A : Type} (l : list A) (lo hi : Z) : list A :=
  let n := Z.of_nat (List.length l) in
  let a := slice_bound n lo in
  let b := slice_bound n hi in
  firstn (Z.to_nat (b - a)) (skipn (Z.to_nat a) l).

(** [img[top:bottom, left:right]]. *)
Definition crop {P : Type} (img : image P) (top bottom left right : Z)
  : image P :=
  List.map (fun row => py_slice row left right) (py_slice img top bottom).

(** [cv2.threshold(src, thresh, maxval, cv2.THRESH_BINARY_INV)[1]]:
    a pixel above [thresh] becomes 0, every other pixel [maxval]. *)
Definition threshold_binary_inv (src : gimage) (thresh maxval : Z)
  : gimage :=
  List.map (List.map (fun v => if v >? thresh then 0 else maxval)) src.

(** A mask pixel is foreground when it is not zero (255 here). *)
Definition foreground (v : Z) : bool := negb (v =? 0).

End Image.
Import Image.

(** ** What a handler does besides updating its object *)

(** Message boxes, the [crop_completed] signal, [QDialog.accept], and a
    file written with the bytes it receives. *)
Inductive effect : Type :=
| Warning (title text : string)
| Information (title text : string)
| Emit (img : cimage)
| Accept
| WriteFile (path content : string).

(** A handler either returns, having shown or emitted [ui], or raises an
    exception; in both cases the object is left in state [s]. *)
Inductive outcome (S : Type) : Type :=
| Done (s : S) (ui : list effect)
| Raised (s : S) (exn : string).

Arguments Done {S} s ui.
Arguments Raised {S} s exn.

(** ** The crop dialog ([ImageCropDialog]) *)

Module ImageCropDialog.

(** [drag_type]: "left", "right", "top", "bottom". *)
Inductive edge : Type := DragLeft | DragRight | DragTop | DragBottom.

Inductive cursor_shape : Type := SizeHorCursor | SizeVerCursor | ArrowCursor.

Inductive mouse_button : Type := LeftButton | OtherButton.

(** The attributes of the dialog that its handlers read or write.
    [scaled_qt_img] keeps the width and height of the scaled preview. *)
Record dialog : Type := mkDialog {
  original_image : option cimage;
  cropped_image : option cimage;
  is_dragging : bool;
  drag_type : option edge;
  crop_left : Z;
  crop_top : Z;
  crop_right : Z;
  crop_bottom : Z;
  scaled_qt_img : option (Z * Z);
  scale_w : Q;
  scale_h : Q;
  img_offset_x : Z;
  img_offset_y : Z;
  cursor : cursor_shape
}.

Definition drag_threshold : Z := 10.
Definition min_crop_size : Z := 20.

(** [__init__]. *)
Definition init (image : option cimage) : dialog :=
  {| original_image := image; cropped_image := None;
     is_dragging := false; drag_type := None;
     crop_left := 0; crop_top := 0; crop_right := 0; crop_bottom := 0;
     scaled_qt_img := None; scale_w := 1; scale_h := 1;
     img_offset_x := 0; img_offset_y := 0; cursor := ArrowCursor |}.

Definition set_cursor (c : cursor_shape) (d : dialog) : dialog :=
  mkDialog (original_image d) (cropped_image d) (is_dragging d)
    (drag_type d) (crop_left d) (crop_top d) (crop_right d)
    (crop_bottom d) (scaled_qt_img d) (scale_w d) (scale_h d)
    (img_offset_x d) (img_offset_y d) c.

Definition set_drag (dragging : bool) (t : option edge) (d : dialog)
  : dialog :=
  mkDialog (original_image d) (cropped_image d) dragging t
    (crop_left d) (crop_top d) (crop_right d) (crop_bottom d)
    (scaled_qt_img d) (scale_w d) (scale_h d)
    (img_offset_x d) (img_offset_y d) (cursor d).

Definition set_crop (l t r b : Z) (d : dialog) : dialog :=
  mkDialog (original_image d) (cropped_image d) (is_dragging d)
    (drag_type d) l t r b (scaled_qt_img d) (scale_w d) (scale_h d)
    (img_offset_x d) (img_offset_y d) (cursor d).

Definition set_cropped_image (c : cimage) (d : dialog) : dialog :=
  mkDialog (original_image d) (Some c) (is_dragging d)
    (drag_type d) (crop_left d) (crop_top d) (crop_right d)
    (crop_bottom d) (scaled_qt_img d) (scale_w d) (scale_h d)
    (img_offset_x d) (img_offset_y d) (cursor d).

(** [_get_valid_image_coords]; [None] when there is no preview to ask
    for its size. *)
Definition _get_valid_image_coords (d : dialog) (mouse_x mouse_y : Z)
  : option (Z * Z) :=
  match scaled_qt_img d with
  | Some (width, height) =>
      let img_x := mouse_x - img_offset_x d in
      let img_y := mouse_y - img_offset_y d in
      Some (Z.max 0 (Z.min img_x width), Z.max 0 (Z.min img_y height))
  | None => None
  end.

(** [_judge_drag_type]. *)
Definition _judge_drag_type (d : dialog) (img_x img_y : Z) : option edge :=
  let left_ok :=
    (Z.abs (img_x - crop_left d) <=? drag_threshold)
    && (crop_top d <=? img_y) && (img_y <=? crop_bottom d) in
  let right_ok :=
    (Z.abs (img_x - crop_right d) <=? drag_threshold)
    && (crop_top d <=? img_y) && (img_y <=? crop_bottom d) in
  let top_ok :=
    (Z.abs (img_y - crop_top d) <=? drag_threshold)
    && (crop_left d <=? img_x) && (img_x <=? crop_right d) in
  let bottom_ok :=
    (Z.abs (img_y - crop_bottom d) <=? drag_threshold)
    && (crop_left d <=? img_x) && (img_x <=? crop_right d) in
  if left_ok then Some DragLeft
  else if right_ok then Some DragRight
  else if top_ok then Some DragTop
  else if bottom_ok then Some DragBottom
  else None.

(** [_update_crop_coords]. *)
Definition _update_crop_coords (d : dialog) (img_x img_y : Z)
  : option dialog :=
  match scaled_qt_img d with
  | Some (img_w, img_h) =>
      Some
        match drag_type d with
        | Some DragLeft =>
            set_crop (Z.max 0 (Z.min img_x (crop_right d - min_crop_size)))
              (crop_top d) (crop_right d) (crop_bottom d) d
        | Some DragRight =>
            set_crop (crop_left d) (crop_top d)
              (Z.min img_w (Z.max img_x (crop_left d + min_crop_size)))
              (crop_bottom d) d
        | Some DragTop =>
            set_crop (crop_left d)
              (Z.max 0 (Z.min img_y (crop_bottom d - min_crop_size)))
              (crop_right d) (crop_bottom d) d
        | Some DragBottom =>
            set_crop (crop_left d) (crop_top d) (crop_right d)
              (Z.min img_h (Z.max img_y (crop_top d + min_crop_size))) d
        | None => d
        end
  | None => None
  end.

(** [_update_mouse_cursor]. *)
Definition _update_mouse_cursor (t : option edge) (d : dialog) : dialog :=
  match t with
  | Some DragLeft | Some DragRight => set_cursor SizeHorCursor d
  | Some DragTop | Some DragBottom => set_cursor SizeVerCursor d
  | None => set_cursor ArrowCursor d
  end.

(** [on_mouse_press]: [None] is the [AttributeError] of a dialog without
    preview, raised before anything is written. *)
Definition on_mouse_press (d : dialog) (b : mouse_button)
    (mouse_x mouse_y : Z) : option dialog :=
  match b with
  | LeftButton =>
      match _get_valid_image_coords d mouse_x mouse_y with
      | Some (img_x, img_y) =>
          let t := _judge_drag_type d img_x img_y in
          let dragging := match t with Some _ => true | None => false end in
          Some (_update_mouse_cursor t (set_drag dragging t d))
      | None => None
      end
  | OtherButton => Some d
  end.

(** [on_mouse_move]; redrawing the rectangle ([_draw_crop_rect]) changes
    no attribute. *)
Definition on_mouse_move (d : dialog) (mouse_x mouse_y : Z)
  : option dialog :=
  match _get_valid_image_coords d mouse_x mouse_y with
  | Some (img_x, img_y) =>
      match is_dragging d, drag_type d with
      | true, Some _ => _update_crop_coords d img_x img_y
      | _, _ =>
          Some (_update_mouse_cursor (_judge_drag_type d img_x img_y) d)
      end
  | None => None
  end.

(** [on_mouse_release]. *)
Definition on_mouse_release (d : dialog) (b : mouse_button) : dialog :=
  match b with
  | LeftButton => _update_mouse_cursor None (set_drag false None d)
  | OtherButton => d
  end.

(** Pointer events, and the dialog run over a sequence of them. *)
Inductive event : Type :=
| Press (b : mouse_button) (x y : Z)
| Move (x y : Z)
| Release (b : mouse_button).

Definition step (d : dialog) (e : event) : option dialog :=
  match e with
  | Press b x y => on_mouse_press d b x y
  | Move x y => on_mouse_move d x y
  | Release b => Some (on_mouse_release d b)
  end.

Fixpoint run (d : dialog) (es : list event) : option dialog :=
  match es with
  | [] => Some d
  | e :: es' =>
      match step d e with
      | Some d' => run d' es'
      | None => None
      end
  end.

(** The rectangle mapped to the original image: each coordinate times
    its scale factor, through [int]. *)
Definition mapped_rect (d : dialog) : Z * Z * Z * Z :=
  (py_int (inject_Z (crop_left d) * scale_w d),
   py_int (inject_Z (crop_top d) * scale_h d),
   py_int (inject_Z (crop_right d) * scale_w d),
   py_int (inject_Z (crop_bottom d) * scale_h d)).

(** [on_confirm_crop]. *)
Definition on_confirm_crop (d : dialog) : outcome dialog :=
  match original_image d, scaled_qt_img d with
  | Some img, Some _ =>
      let '(orig_left, orig_top, orig_right, orig_bottom) :=
        mapped_rect d in
      let orig_h := shape_h img in
      let orig_w := shape_w img in
      if (orig_left <? 0) || (orig_top <? 0)
         || (orig_right >? orig_w) || (orig_bottom >? orig_h)
      then Done d [Warning "警告" "剪裁区域超出原始图像范围！"]
      else
        let c := crop img orig_top orig_bottom orig_left orig_right in
        Done (set_cropped_image c d)
             [Emit c; Information "提示" "剪裁成功"; Accept]
  | _, _ => Done d [Warning "警告" "无有效图像可剪裁！"]
  end.

Section Qt.

(** Size of [self.image_label], and the size Qt's
    [scaled(size, KeepAspectRatio, SmoothTransformation)] gives the
    preview of an image of the given width and height. *)
Variable label_size : Z * Z.
Variable scaled : Z -> Z -> Z * Z.

(** [_init_image_display].  The quotients [w / width] and [h / height]
    are Python's true division, which raises on a zero divisor. *)
Definition _init_image_display (d : dialog) : outcome dialog :=
  match original_image d with
  | None => Done d []
  | Some img =>
      let h := shape_h img in
      let w := shape_w img in
      let '(img_w, img_h) := scaled w h in
      let d1 :=
        mkDialog (original_image d) (cropped_image d) (is_dragging d)
          (drag_type d) (crop_left d) (crop_top d) (crop_right d)
          (crop_bottom d) (Some (img_w, img_h)) (scale_w d) (scale_h d)
          (img_offset_x d) (img_offset_y d) (cursor d) in
      if img_w =? 0 then Raised d1 "ZeroDivisionError"
      else
        let sw := Qred (inject_Z w / inject_Z img_w) in
        if img_h =? 0
        then
          Raised
            (mkDialog (original_image d) (cropped_image d) (is_dragging d)
               (drag_type d) (crop_left d) (crop_top d) (crop_right d)
               (crop_bottom d) (Some (img_w, img_h)) sw (scale_h d)
               (img_offset_x d) (img_offset_y d) (cursor d))
            "ZeroDivisionError"
        else
          Done
            (mkDialog (original_image d) (cropped_image d) (is_dragging d)
               (drag_type d)
               20 20 (img_w - 20) (img_h - 20)
               (Some (img_w, img_h))
               sw
               (Qred (inject_Z h / inject_Z img_h))
               ((fst label_size - img_w) / 2)
               ((snd label_size - img_h) / 2)
               (cursor d))
            []
  end.

(** [on_reset]. *)
Definition on_reset (d : dialog) : outcome dialog :=
  match _init_image_display d with
  | Done d' ui => Done (_update_mouse_cursor None d') ui
  | Raised d' exn => Raised d' exn
  end.

(** [on_show_event]. *)
Definition on_show_event (d : dialog) : outcome dialog :=
  match original_image d with
  | Some _ =>
      match _init_image_display d with
      | Done d' ui =>
          Done (_update_mouse_cursor
                  (_judge_drag_type d' (crop_left d') (crop_top d')) d')
               ui
      | Raised d' exn => Raised d' exn
      end
  | None => Done d []
  end.

End Qt.

End ImageCropDialog.

(** ** The main window ([CircularityCalculator]) *)

Module CircularityCalculator.

(** A contour as OpenCV returns it: its polyline vertices. *)
Definition contour : Type := list (Z * Z).

(** An entry of [particle_data]: the dict with keys "index",
    "perimeter", "area" and "circularity". *)
Record particle : Type := mkParticle {
  index : Z;
  perimeter : Q;
  area : Q;
  circularity : Q
}.

(** What has been drawn on a copy of the image: a contour outline
    ([cv2.drawContours], green, width 3) or the label
    "C:<c> A:<a> L:<l>" put at [(cX, cY)] ([cv2.putText]). *)
Inductive stroke : Type :=
| DrawContour (c : contour)
| PutText (cX cY : Z) (c a l : Q).

Record canvas : Type := mkCanvas {
  base : cimage;
  strokes : list stroke
}.

(** [img.copy()] with nothing drawn yet, and drawing one more stroke. *)
Definition copy (img : cimage) : canvas := mkCanvas img [].
Definition draw (s : stroke) (cv : canvas) : canvas :=
  mkCanvas (base cv) (strokes cv ++ [s]).

(** The contours outlined on a canvas, in drawing order. *)
Definition drawn_contours (cv : canvas) : list contour :=
  flat_map (fun s => match s with
                     | DrawContour c => [c]
                     | PutText _ _ _ _ _ => []
                     end) (strokes cv).

(** The attributes of the window that its handlers read or write.
    [filtered_particle_data] is [None] until the attribute is first
    assigned; [table] holds the rows shown by [self.table]; [view2] and
    [view3] the image last given to each view; [current_index] the page
    of the stacked widget. *)
Record session : Type := mkSession {
  original_image_path : string;
  original_image : option cimage;
  cropped_image : option cimage;
  gray_image : option gimage;
  binary_image : option gimage;
  processed_image : option canvas;
  particle_data : list particle;
  current_threshold : Z;
  filtered_particle_data : option (list particle);
  table : list particle;
  view2 : option canvas;
  view3 : option canvas;
  current_index : Z
}.

(** [__init__]. *)
Definition init : session :=
  {| original_image_path := EmptyString; original_image := None;
     cropped_image := None; gray_image := None; binary_image := None;
     processed_image := None; particle_data := [];
     current_threshold := 160; filtered_particle_data := None;
     table := []; view2 := None; view3 := None; current_index := 0 |}.

Definition set_binary_image (b : gimage) (s : session) : session :=
  mkSession (original_image_path s) (original_image s) (cropped_image s)
    (gray_image s) (Some b) (processed_image s) (particle_data s)
    (current_threshold s) (filtered_particle_data s) (table s)
    (view2 s) (view3 s) (current_index s).

Definition set_particle_data (ps : list particle) (s : session) : session :=
  mkSession (original_image_path s) (original_image s) (cropped_image s)
    (gray_image s) (binary_image s) (processed_image s) ps
    (current_threshold s) (filtered_particle_data s) (table s)
    (view2 s) (view3 s) (current_index s).

Definition set_processed_image (cv : canvas) (s : session) : session :=
  mkSession (original_image_path s) (original_image s) (cropped_image s)
    (gray_image s) (binary_image s) (Some cv) (particle_data s)
    (current_threshold s) (filtered_particle_data s) (table s)
    (view2 s) (view3 s) (current_index s).

(** [fill_table]. *)
Definition fill_table (data : list particle) (s : session) : session :=
  mkSession (original_image_path s) (original_image s) (cropped_image s)
    (gray_image s) (binary_image s) (processed_image s) (particle_data s)
    (current_threshold s) (filtered_particle_data s) data
    (view2 s) (view3 s) (current_index s).

(** [update_binary_image]. *)
Definition update_binary_image (s : session) (threshold : Z) : session :=
  match gray_image s with
  | None => s
  | Some gray => set_binary_image (threshold_binary_inv gray threshold 255) s
  end.

(** [self.cropped_image if self.cropped_image is not None
     else self.original_image]. *)
Definition target_original (s : session) : option cimage :=
  match cropped_image s with
  | Some img => Some img
  | None => original_image s
  end.

(** [np.pi], the binary64 nearest to pi. *)
Definition np_pi : Q := 884279719003555 # 281474976710656.

(** [(4 * np.pi * area) / (perimeter ** 2)]. *)
Definition circularity_of (area perimeter : Q) : Q :=
  ((4 * np_pi * area) / (perimeter ^ 2))%Q.

(** ** CSV text *)

Definition quotechar : ascii := "034"%char.
Definition CR : ascii := "013"%char.
Definition LF : ascii := "010"%char.

Fixpoint needs_quotes (s : string) : bool :=
  match s with
  | EmptyString => false
  | String c s' =>
      Ascii.eqb c "," || Ascii.eqb c quotechar || Ascii.eqb c CR
      || Ascii.eqb c LF || needs_quotes s'
  end.

Fixpoint double_quotes (s : string) : string :=
  match s with
  | EmptyString => EmptyString
  | String c s' =>
      if Ascii.eqb c quotechar
      then String c (String c (double_quotes s'))
      else String c (double_quotes s')
  end.

(** A field as [csv.writer] (excel dialect, minimal quoting) writes it. *)
Definition csv_field (s : string) : string :=
  if needs_quotes s
  then String quotechar (double_quotes s ++ String quotechar EmptyString)
  else s.

Fixpoint join_fields (fs : list string) : string :=
  match fs with
  | [] => EmptyString
  | [f] => csv_field f
  | f :: fs' => csv_field f ++ String "," (join_fields fs')
  end.

(** The line terminator of the excel dialect. *)
Definition crlf : string := String CR (String LF EmptyString).

(** [writer.writerow(fields)]: the line appended to the file. *)
Definition writerow (fs : list string) : string :=
  join_fields fs ++ crlf.

(** The three bytes that the "utf-8-sig" codec puts in front. *)
Definition utf8_bom : string :=
  String "239"%char (String "187"%char (String "191"%char EmptyString)).

(** [str(i)] of an [int]. *)
Definition str_int (i : Z) : string :=
  DecimalString.NilZero.string_of_int (Z.to_int i).

(** The header row that [save_processed_csv] writes. *)
Definition csv_header : list string := ["序号"; "周长"; "面积"; "圆形度"]%string.

Section OpenCV.

(** [cv2.findContours(mask, RETR_EXTERNAL, CHAIN_APPROX_SIMPLE)[0]],
    [cv2.arcLength(c, closed=True)], [cv2.contourArea(c)] and
    the entries m00, m10, m01 of [cv2.moments(c)]. *)
Variable findContours : gimage -> list contour.
Variable arcLength : contour -> Q.
Variable contourArea : contour -> Q.
Variable moments : contour -> Q * Q * Q.

(** [str(x)] of a [float], as [csv.writer] formats it. *)
Variable str_float : Q -> string.

(** The label put at the centroid when [M["m00"] > 0]. *)
Definition put_label (c : contour) (circ a l : Q) (cv : canvas) : canvas :=
  let '(m00, m10, m01) := moments c in
  if negb (Qle_bool m00 0)
  then draw (PutText (py_int (m10 / m00)) (py_int (m01 / m00))
               (round4 circ) (round4 a) (round4 l)) cv
  else cv.

(** One pass of the loop body of [goto_page2] on the pair of
    [self.particle_data] and [self.processed_image]. *)
Definition extract_step (idx : Z) (c : contour)
    (acc : list particle * canvas) : list particle * canvas :=
  let perimeter := arcLength c in
  let area := contourArea c in
  if Qle_bool perimeter 0 || Qle_bool area 0 then acc
  else
    let circularity := circularity_of area perimeter in
    (fst acc ++ [mkParticle idx (round4 perimeter) (round4 area)
                   (round4 circularity)],
     put_label c circularity area perimeter
       (draw (DrawContour c) (snd acc))).

(** [for idx, contour in enumerate(contours, 1)], from [idx]. *)
Fixpoint extract_loop (idx : Z) (contours : list contour)
    (acc : list particle * canvas) : list particle * canvas :=
  match contours with
  | [] => acc
  | c :: contours' =>
      extract_loop (idx + 1) contours' (extract_step idx c acc)
  end.

(** [goto_page2]. *)
Definition goto_page2 (s : session) : outcome session :=
  match binary_image s with
  | None => Done s [Warning "错误" "请先完成图像上传和阈值调整！"]
  | Some mask =>
      let contours := findContours mask in
      let s1 := set_particle_data [] s in
      match target_original s with
      | None => Raised s1 "AttributeError"
      | Some img =>
          let '(data, cv) := extract_loop 1 contours ([], copy img) in
          Done
            (mkSession (original_image_path s) (original_image s)
               (cropped_image s) (gray_image s) (binary_image s)
               (Some cv) data (current_threshold s)
               (filtered_particle_data s) data (Some cv) (view3 s) 1)
            []
      end
  end.

(** The loop body of [filter_particles] on [self.processed_image]. *)
Definition redraw_step (cv : canvas) (c : contour) : canvas :=
  let cv1 := draw (DrawContour c) cv in
  let perimeter := arcLength c in
  let area := contourArea c in
  let circularity :=
    if negb (Qle_bool perimeter 0) then circularity_of area perimeter
    else 0%Q in
  put_label c circularity area perimeter cv1.

(** [filter_particles], with the text of [self.area_threshold_input]. *)
Definition filter_particles (s : session) (text : string)
  : outcome session :=
  let reject :=
    Done s [Warning "错误" "请输入有效的非负数字作为最小面积阈值！"] in
  match py_float text with
  | None => reject
  | Some min_area =>
      if py_lt min_area py_zero then reject
      else
        let filtered_data :=
          List.filter (fun item => py_ge (PFin (area item)) min_area)
            (particle_data s) in
        match target_original s with
        | None => Raised s "AttributeError"
        | Some img =>
            let s1 := set_processed_image (copy img) s in
            match binary_image s with
            | None => Raised s1 "AttributeError"
            | Some mask =>
                let contours := findContours mask in
                let filtered_contours :=
                  List.filter
                    (fun c => py_ge (PFin (contourArea c)) min_area)
                    contours in
                let cv :=
                  fold_left redraw_step filtered_contours (copy img) in
                Done
                  (mkSession (original_image_path s) (original_image s)
                     (cropped_image s) (gray_image s) (binary_image s)
                     (Some cv) (particle_data s) (current_threshold s)
                     (Some filtered_data) filtered_data (view2 s)
                     (Some cv) 2)
                  []
            end
        end
  end.

(** The row written for one particle. *)
Definition csv_row (item : particle) : list string :=
  [str_int (index item); str_float (perimeter item);
   str_float (area item); str_float (circularity item)].

(** The bytes of the file: the marker, the header line, one line per
    particle. *)
Definition csv_bytes (data : list particle) : string :=
  utf8_bom ++ writerow csv_header
  ++ String.concat EmptyString (List.map (fun item => writerow (csv_row item)) data).

(** [save_processed_csv], with the path chosen in the save dialog
    (empty when the dialog is cancelled). *)
Definition save_processed_csv (s : session) (save_path : string)
  : outcome session :=
  match filtered_particle_data s with
  | Some data =>
      if String.eqb (original_image_path s) EmptyString
      then Done s [Warning "错误" "没有可保存的颗粒数据！"]
      else if String.eqb save_path EmptyString then Done s []
      else
        Done s [WriteFile save_path (csv_bytes data);
                Information "成功"
                  ("CSV数据已保存至：" ++ String LF save_path)]
  | None => Done s [Warning "错误" "没有可保存的颗粒数据！"]
  end.

End OpenCV.

End CircularityCalculator.

(** ** Vocabulary of the statements about the crop dialog *)

Module CropRegion.

Import ImageCropDialog.

(** The coordinate that an edge of the rectangle has. *)
Definition edge_coord (d : dialog) (e : edge) : Z :=
  match e with
  | DragLeft => crop_left d
  | DragRight => crop_right d
  | DragTop => crop_top d
  | DragBottom => crop_bottom d
  end.

(** The pointer coordinate that moves an edge: horizontal for the left
    and right edges, vertical for the top and bottom ones. *)
Definition along (e : edge) (x y : Z) : Z :=
  match e with
  | DragLeft | DragRight => x
  | DragTop | DragBottom => y
  end.

(** A position is near an edge: within [drag_threshold] of it, with the
    other coordinate inside the span of the opposite pair of edges. *)
Definition near_edge (d : dialog) (e : edge) (x y : Z) : Prop :=
  match e with
  | DragLeft =>
      Z.abs (x - crop_left d) <= drag_threshold
      /\ crop_top d <= y <= crop_bottom d
  | DragRight =>
      Z.abs (x - crop_right d) <= drag_threshold
      /\ crop_top d <= y <= crop_bottom d
  | DragTop =>
      Z.abs (y - crop_top d) <= drag_threshold
      /\ crop_left d <= x <= crop_right d
  | DragBottom =>
      Z.abs (y - crop_bottom d) <= drag_threshold
      /\ crop_left d <= x <= crop_right d
  end.

(** Place of an edge in the order left, right, top, bottom. *)
Definition priority (e : edge) : nat :=
  match e with
  | DragLeft => 0
  | DragRight => 1
  | DragTop => 2
  | DragBottom => 3
  end.

(** The rectangle lies inside the preview and is at least
    [min_crop_size] wide and high. *)
Definition crop_inv (d : dialog) : Prop :=
  exists img_w img_h,
    scaled_qt_img d = Some (img_w, img_h)
    /\ 0 <= crop_left d
    /\ crop_left d + min_crop_size <= crop_right d
    /\ crop_right d <= img_w
    /\ 0 <= crop_top d
    /\ crop_top d + min_crop_size <= crop_bottom d
    /\ crop_bottom d <= img_h.

(** The interval in which a drag may put an edge: from 0 (for the right
    and bottom edges: from the opposite edge plus [min_crop_size]) to the
    opposite edge minus [min_crop_size] (for the right and bottom edges:
    to the extent of the preview). *)
Definition edge_range (d : dialog) (img_w img_h : Z) (e : edge) : Z * Z :=
  match e with
  | DragLeft => (0, crop_right d - min_crop_size)
  | DragRight => (crop_left d + min_crop_size, img_w)
  | DragTop => (0, crop_bottom d - min_crop_size)
  | DragBottom => (crop_top d + min_crop_size, img_h)
  end.

(** The point of [lo..hi] nearest to [v]. *)
Definition nearest (lo hi v : Z) : Z :=
  if v <? lo then lo else if hi <? v then hi else v.

(** All four corners of a rectangle (left, top, right, bottom) lie in
    [0, w] x [0, h]. *)
Definition within (w h : Z) (r : Z * Z * Z * Z) : Prop :=
  let '(x0, y0, x1, y1) := r in
  0 <= x0 <= w /\ 0 <= x1 <= w /\ 0 <= y0 <= h /\ 0 <= y1 <= h.

End CropRegion.

(** ** Vocabulary of the statements about particles *)

Module Particles.

Import CircularityCalculator.

(** [enumerate(l, start)]. *)
Fixpoint enumerate {A : Type} (start : Z) (l : list A) : list (Z * A) :=
  match l with
  | [] => []
  | a :: l' => (start, a) :: enumerate (start + 1) l'
  end.

(** The answer to a threshold text that is refused: the warning, and the
    window as it was. *)
Definition rejected (s : session) : outcome session :=
  Done s [Warning "错误" "请输入有效的非负数字作为最小面积阈值！"].

(** A value with at most four decimal places. *)
Definition four_decimals (q : Q) : Prop :=
  exists z : Z, (q == z # 10000)%Q.

Section Measure.

Variable arcLength : contour -> Q.
Variable contourArea : contour -> Q.

(** The positivity check of the extraction: perimeter and area are both
    strictly positive. *)
Definition accepted (c : contour) : Prop :=
  (0 < arcLength c)%Q /\ (0 < contourArea c)%Q.

Definition acceptedb (c : contour) : bool :=
  negb (Qle_bool (arcLength c) 0 || Qle_bool (contourArea c) 0).

(** The record of the contour found as number [idx]. *)
Definition particle_of (idx : Z) (c : contour) : particle :=
  mkParticle idx (round4 (arcLength c)) (round4 (contourArea c))
    (round4 (circularity_of (contourArea c) (arcLength c))).

(** The records that the extraction makes of a list of contours: one
    for each accepted contour, numbered by the place of the contour in
    the list, counted from 1. *)
Definition extracted (contours : list contour) : list particle :=
  List.map (fun ic => particle_of (fst ic) (snd ic))
    (List.filter (fun ic => acceptedb (snd ic)) (enumerate 1 contours)).

End Measure.

End Particles.

(** ** Sample inputs *)

Module Samples.

Import CircularityCalculator.

(** A window in which only a grayscale image has been loaded. *)
Definition gray_session (gray : gimage) : session :=
  mkSession EmptyString None None (Some gray) None None [] 160 None []
    None None 0.

(** An image of [w] x [h] black pixels. *)
Definition black (w h : nat) : cimage := repeat (repeat (0, 0, 0) w) h.

(** The size of [self.image_label] taken for the samples, and the size
    that Qt's [QSize::scaled] with [KeepAspectRatio] gives an image of
    [w] x [h] in it. *)
Definition label_size : Z * Z := (780, 540).

Definition keep_aspect (w h : Z) : Z * Z :=
  let rw := snd label_size * w / h in
  if rw <=? fst label_size then (rw, snd label_size)
  else (fst label_size, fst label_size * h / w).

(** The crop dialog as it is once shown for an image. *)
Definition shown (img : cimage) : ImageCropDialog.dialog :=
  match ImageCropDialog.on_show_event label_size keep_aspect
          (ImageCropDialog.init (Some img)) with
  | Done d _ => d
  | Raised d _ => d
  end.

(** The dialog on an image of 8 x 6 pixels (preview 720 x 540), on a
    strip of 10 x 200 pixels (preview 27 x 540) and on a strip of
    19 x 600 pixels (preview 17 x 540). *)
Definition wide_dialog : ImageCropDialog.dialog := shown (black 8 6).
Definition strip_dialog : ImageCropDialog.dialog := shown (black 10 200).
Definition thin_dialog : ImageCropDialog.dialog := shown (black 19 600).

(** A photograph of 8 x 8 pixels: white background, a dark square of
    3 x 3 pixels and one dark pixel. *)
Definition sand_gray : gimage :=
  [[255; 255; 255; 255; 255; 255; 255; 255];
   [255;   0;   0;   0; 255; 255; 255; 255];
   [255;   0;   0;   0; 255; 255; 255; 255];
   [255;   0;   0;   0; 255; 255; 255; 255];
   [255; 255; 255; 255; 255; 255; 255; 255];
   [255; 255; 255; 255; 255; 255; 255; 255];
   [255; 255; 255; 255; 255; 255;   0; 255];
   [255; 255; 255; 255; 255; 255; 255; 255]].

Definition sand : cimage := List.map (List.map (fun v => (v, v, v))) sand_gray.

(** The contour of the single pixel and the contour of the square. *)
Definition dot : contour := [(6, 6)].
Definition square : contour := [(1, 1); (1, 3); (3, 3); (3, 1)].

(** A tracer that finds the given contours in every mask. *)
Definition traced (cs : list contour) : gimage -> list contour :=
  fun _ => cs.

(** The vertex after each vertex of a closed polyline. *)
Definition successors (c : contour) : list (Z * Z) :=
  match c with
  | [] => []
  | p :: c' => c' ++ [p]
  end.

(** Length of a closed polyline; exact where every edge has an integer
    length, as the edges of [dot] and [square] have. *)
Definition polyline_length (c : contour) : Q :=
  inject_Z
    (fold_right Z.add 0
       (List.map (fun '((x0, y0), (x1, y1)) =>
                    Z.sqrt ((x1 - x0) * (x1 - x0) + (y1 - y0) * (y1 - y0)))
          (combine c (successors c)))).

(** Twice the signed area, by the shoelace formula. *)
Definition shoelace (c : contour) : Z :=
  fold_right Z.add 0
    (List.map (fun '((x0, y0), (x1, y1)) => x0 * y1 - x1 * y0)
       (combine c (successors c))).

Definition polygon_area (c : contour) : Q := Qmake (Z.abs (shoelace c)) 2.

(** The moments m00, m10, m01 of the polygon. *)
Definition polygon_moments (c : contour) : Q * Q * Q :=
  let es := combine c (successors c) in
  let a10 :=
    fold_right Z.add 0
      (List.map (fun '((x0, y0), (x1, y1)) =>
                   (x0 * y1 - x1 * y0) * (x0 + x1)) es) in
  let a01 :=
    fold_right Z.add 0
      (List.map (fun '((x0, y0), (x1, y1)) =>
                   (x0 * y1 - x1 * y0) * (y0 + y1)) es) in
  let sgn := Z.sgn (shoelace c) in
  (Qmake (Z.abs (shoelace c)) 2, Qmake (sgn * a10) 6, Qmake (sgn * a01) 6).

(** Decimal text of a value with at most four decimal places, as
    [str] prints such a float: "8.0", "0.7854". *)
Definition digit_char (d : Z) : ascii := ascii_of_nat (48 + Z.to_nat d).

Definition repr4 (q : Q) : string :=
  let n := round_half_even (q * inject_Z 10000) in
  let a := Z.abs n in
  let fp := a mod 10000 in
  let d1 := String (digit_char (fp / 1000)) EmptyString in
  let d2 := String (digit_char (fp / 100 mod 10)) EmptyString in
  let d3 := String (digit_char (fp / 10 mod 10)) EmptyString in
  let d4 := String (digit_char (fp mod 10)) EmptyString in
  let frac :=
    if fp mod 1000 =? 0 then d1
    else if fp mod 100 =? 0 then (d1 ++ d2)%string
    else if fp mod 10 =? 0 then (d1 ++ d2 ++ d3)%string
    else (d1 ++ d2 ++ d3 ++ d4)%string in
  let sgn := if n <? 0 then "-"%string else EmptyString in
  let whole := str_int (a / 10000) in
  (sgn ++ whole ++ "." ++ frac)%string.

(** The window after [sand] has been uploaded with threshold 160. *)
Definition uploaded : session :=
  mkSession "sand.png" (Some sand) None (Some sand_gray)
    (Some (threshold_binary_inv sand_gray 160 255)) None [] 160 None []
    None None 0.

(** The handlers with the sample tracer and the polygon measures. *)
Definition sample_goto_page2 (cs : list contour) : session -> outcome session :=
  goto_page2 (traced cs) polyline_length polygon_area polygon_moments.

Definition sample_filter_particles (cs : list contour)
  : session -> string -> outcome session :=
  filter_particles (traced cs) polyline_length polygon_area polygon_moments.

(** The window after the given handler has run; unchanged if it raised. *)
Definition after (o : outcome session) : session :=
  match o with
  | Done s _ => s
  | Raised s _ => s
  end.

(** The window after the extraction on the contours of the pixel and of
    the square, in this order, and after filtering it with threshold 0. *)
Definition analysed : session :=
  after (sample_goto_page2 [dot; square] uploaded).

Definition filtered : session :=
  after (sample_filter_particles [dot; square] analysed "0").

End Samples.

(** ** The zoomable view ([ZoomableGraphicsView]) *)

Module ZoomableGraphicsView.

(** [zoom_factor], the scale factor of the view transform (the same on
    both axes) and the size of the image in the scene, if any. *)
Record view : Type := mkView {
  zoom_factor : Q;
  transform : Q;
  scene : option (Z * Z)
}.

Definition min_zoom : Q := 1 # 10.
Definition max_zoom : Q := 10.
Definition zoom_step : Q := 1 # 10.

(** [max(a, b)] and [min(a, b)] of Python on floats. *)
Definition py_max (a b : Q) : Q := if Qle_bool a b then b else a.
Definition py_min (a b : Q) : Q := if Qle_bool a b then a else b.

(** [wheelEvent], with [event.angleDelta().y()]; [None] is the
    [ZeroDivisionError] of [new_zoom / self.zoom_factor]. *)
Definition wheelEvent (v : view) (delta : Z) : option view :=
  let new_zoom :=
    if delta >? 0 then (zoom_factor v + zoom_step)%Q
    else (zoom_factor v - zoom_step)%Q in
  let new_zoom := py_max min_zoom (py_min max_zoom new_zoom) in
  if Qeq_bool new_zoom (zoom_factor v) then Some v
  else if Qeq_bool (zoom_factor v) 0 then None
  else
    let scale_ratio := (new_zoom / zoom_factor v)%Q in
    Some (mkView new_zoom (transform v * scale_ratio)%Q (scene v)).


Section Fit.

(** The scale with which [fitInView(sceneRect, KeepAspectRatio)] shows an
    image of the given width and height whole. *)
Variable fit : Z -> Z -> Q.


End Fit.

End ZoomableGraphicsView.

(** ** Drawing the crop rectangle ([ImageCropDialog._draw_crop_rect]) *)

Module CropDrawing.

Import ImageCropDialog.

(** The arguments of one [painter.drawRect(x, y, w, h)]. *)
Record qrect : Type := mkRect {
  rect_x : Z;
  rect_y : Z;
  rect_w : Z;
  rect_h : Z
}.

(** [_draw_crop_rect]: the four rectangles filled with the translucent
    black brush, in drawing order, and the rectangle outlined in red;
    [None] when there is no preview, in which case nothing is drawn. *)
Definition _draw_crop_rect (d : dialog) : option (list qrect * qrect) :=
  match scaled_qt_img d with
  | None => None
  | Some (width, height) =>
      Some
        ([mkRect 0 0 width (crop_top d);
          mkRect 0 (crop_bottom d) width (height - crop_bottom d);
          mkRect 0 (crop_top d) (crop_left d) (crop_bottom d - crop_top d);
          mkRect (crop_right d) (crop_top d) (width - crop_right d)
            (crop_bottom d - crop_top d)],
         mkRect (crop_left d) (crop_top d) (crop_right d - crop_left d)
           (crop_bottom d - crop_top d))
  end.

(** A filled rectangle covers the pixels from its corner, [rect_w]
    columns wide and [rect_h] rows high. *)
Definition fills (r : qrect) (px py : Z) : bool :=
  (rect_x r <=? px) && (px <? rect_x r + rect_w r)
  && (rect_y r <=? py) && (py <? rect_y r + rect_h r).

(** How many of the rectangles cover a pixel. *)
Definition shade_count (rs : list qrect) (px py : Z) : nat :=
  List.length (List.filter (fun r => fills r px py) rs).

(** A pointer event that is a move. *)
Definition is_move (e : event) : bool :=
  match e with
  | Move _ _ => true
  | _ => false
  end.

End CropDrawing.

(** ** File names ([os.path], POSIX flavour) *)

Module OsPath.

Local Open Scope string_scope.

(** [s.rfind(c)]: the last position of [c] in [s], or -1. *)
Fixpoint rfind (c : ascii) (s : string) : Z :=
  match s with
  | EmptyString => -1
  | String a s' =>
      let r := rfind c s' in
      if (0 <=? r)%Z then (r + 1)%Z
      else if Ascii.eqb a c then 0%Z else (-1)%Z
  end.

(** [s[:i]] and [s[i:]] for [0 <= i]. *)
Definition prefix (i : Z) (s : string) : string :=
  substring 0 (Z.to_nat i) s.
Definition suffix (i : Z) (s : string) : string :=
  substring (Z.to_nat i) (String.length s - Z.to_nat i) s.

(** [s.rstrip("/")]. *)
Fixpoint rstrip_slash (s : string) : string :=
  match s with
  | EmptyString => EmptyString
  | String a s' =>
      match rstrip_slash s' with
      | EmptyString => if Ascii.eqb a "/" then EmptyString
                       else String a EmptyString
      | r => String a r
      end
  end.

(** [os.path.split(p)]: everything up to the last slash, without
    trailing slashes unless it consists of slashes only, and the rest. *)
Definition split (p : string) : string * string :=
  let i := (rfind "/" p + 1)%Z in
  let head := prefix i p in
  let tail := suffix i p in
  (match rstrip_slash head with
   | EmptyString => head
   | h => h
   end, tail).

(** Some character of [s] at a position in [[from, from + n)] is not a
    dot. *)
Fixpoint non_dot_in (s : string) (from n : nat) : bool :=
  match n with
  | O => false
  | S n' =>
      match get from s with
      | Some a => negb (Ascii.eqb a ".") || non_dot_in s (S from) n'
      | None => false
      end
  end.

(** [os.path.splitext(p)]: the extension starts at the last dot of the
    last component, unless only dots precede it there. *)
Definition splitext (p : string) : string * string :=
  let sepIndex := rfind "/" p in
  let dotIndex := rfind "." p in
  if (sepIndex <? dotIndex)%Z
     && non_dot_in p (Z.to_nat (sepIndex + 1))
          (Z.to_nat (dotIndex - (sepIndex + 1)))
  then (prefix dotIndex p, suffix dotIndex p)
  else (p, EmptyString).

(** [os.path.join(a, b)]. *)
Definition join (a b : string) : string :=
  match b with
  | String "/" _ => b
  | _ =>
      if (String.eqb a EmptyString || (rfind "/" a =? Z.of_nat (String.length a) - 1)%Z)%bool
      then a ++ b
      else a ++ "/" ++ b
  end.

End OsPath.

(** ** Saving: the proposed names and [save_processed_image] *)

Module Saving.

Import CircularityCalculator.

(** The path proposed by [save_processed_image] in its file dialog. *)
Definition proposed_image_path (s : session) : string :=
  let '(dir_name, file_name) := OsPath.split (original_image_path s) in
  let '(file_base, file_ext) := OsPath.splitext file_name in
  OsPath.join dir_name (file_base ++ "_processed" ++ file_ext).

(** The path proposed by [save_processed_csv] in its file dialog. *)
Definition proposed_csv_path (s : session) : string :=
  let '(dir_name, file_name) := OsPath.split (original_image_path s) in
  let '(file_base, _) := OsPath.splitext file_name in
  OsPath.join dir_name (file_base ++ "_processed.csv").


End Saving.

(** ** The first page: upload, crop, threshold *)

Module Page1.

Import CircularityCalculator.

(** The window with the widgets of the first page: the image shown by
    [view1] (a colour image or a mask), whether the crop button and the
    next button are enabled, and the text of the threshold label. *)
Record window : Type := mkWindow {
  session_of : session;
  view1 : option (cimage + gimage);
  crop_btn : bool;
  next1_btn : bool;
  threshold_value_label : string
}.

(** [__init__]: a black image of 640 x 480 in [view1], both buttons
    disabled. *)
Definition init : window :=
  mkWindow CircularityCalculator.init
    (Some (inl (repeat (repeat (0, 0, 0) 640) 480))) false false "160".

(** An image without pixels. *)
Definition is_empty {P : Type} (img : image P) : bool :=
  (shape_h img =? 0) || (shape_w img =? 0).

Section IO.

(** [cv2.imread(path)]: the decoded image, or [None]. *)
Variable imread : string -> option cimage.

(** The gray value that [cv2.cvtColor(img, cv2.COLOR_BGR2GRAY)] gives a
    pixel. *)
Variable bgr2gray : Z * Z * Z -> Z.

(** [cv2.cvtColor(img, cv2.COLOR_BGR2GRAY)]; [None] is the [cv2.error]
    raised for an image without pixels. *)
Definition cvtColor_BGR2GRAY (img : cimage) : option gimage :=
  if is_empty img then None
  else Some (List.map (List.map bgr2gray) img).

Definition set_gray_image (g : gimage) (s : session) : session :=
  mkSession (original_image_path s) (original_image s) (cropped_image s)
    (Some g) (binary_image s) (processed_image s) (particle_data s)
    (current_threshold s) (filtered_particle_data s) (table s)
    (view2 s) (view3 s) (current_index s).

(** [upload_image], with the path chosen in the open dialog (empty when
    the dialog is cancelled). *)
Definition upload_image (w : window) (file_path : string) : outcome window :=
  if String.eqb file_path EmptyString then Done w []
  else
    let s := session_of w in
    let s1 :=
      mkSession file_path (imread file_path) None (gray_image s)
        (binary_image s) (processed_image s) (particle_data s)
        (current_threshold s) (filtered_particle_data s) (table s)
        (view2 s) (view3 s) (current_index s) in
    match imread file_path with
    | None =>
        Done (mkWindow s1 (view1 w) (crop_btn w) (next1_btn w)
                (threshold_value_label w))
          [Warning "错误" "无法读取选中的图像文件！"]
    | Some img =>
        match cvtColor_BGR2GRAY img with
        | None =>
            Raised (mkWindow s1 (Some (inl img)) (crop_btn w) (next1_btn w)
                      (threshold_value_label w))
              "cv2.error"
        | Some g =>
            Done
              (mkWindow
                 (update_binary_image (set_gray_image g s1)
                    (current_threshold s1))
                 (Some (inl img)) true true (threshold_value_label w))
              []
        end
    end.

(** [open_crop_dialog]: the dialog that is opened, or the warning. *)
Definition open_crop_dialog (w : window)
  : option ImageCropDialog.dialog * list effect :=
  match original_image (session_of w) with
  | None => (None, [Warning "错误" "请先上传图像！"])
  | Some img => (Some (ImageCropDialog.init (Some img)), [])
  end.

(** What [on_crop_completed] and [update_threshold] share once the gray
    image is there: the new mask, shown in [view1], and the next button
    enabled. *)
Definition show_mask (w : window) (s : session) (threshold : Z)
    (label : string) : window :=
  let s' := update_binary_image s threshold in
  mkWindow s'
    (match binary_image s' with
     | Some mask => Some (inr mask)
     | None => None
     end)
    (crop_btn w) true label.

(** [on_crop_completed], the slot of the signal [crop_completed]. *)
Definition on_crop_completed (w : window) (cropped_img : cimage)
  : outcome window :=
  let s := session_of w in
  let s1 :=
    mkSession (original_image_path s) (original_image s) (Some cropped_img)
      (gray_image s) (binary_image s) (processed_image s) (particle_data s)
      (current_threshold s) (filtered_particle_data s) (table s)
      (view2 s) (view3 s) (current_index s) in
  match cvtColor_BGR2GRAY cropped_img with
  | None =>
      Raised (mkWindow s1 (view1 w) (crop_btn w) (next1_btn w)
                (threshold_value_label w))
        "cv2.error"
  | Some g =>
      Done (show_mask w (set_gray_image g s1) (current_threshold s1)
              (threshold_value_label w))
        []
  end.

(** [update_threshold], the slot of the slider. *)
Definition update_threshold (w : window) (value : Z) : outcome window :=
  let s := session_of w in
  let s1 :=
    mkSession (original_image_path s) (original_image s) (cropped_image s)
      (gray_image s) (binary_image s) (processed_image s) (particle_data s)
      value (filtered_particle_data s) (table s)
      (view2 s) (view3 s) (current_index s) in
  let w1 := mkWindow s1 (view1 w) (crop_btn w) (next1_btn w) (str_int value) in
  match target_original s1 with
  | None => Done w1 []
  | Some target_image =>
      match cvtColor_BGR2GRAY target_image with
      | None => Raised w1 "cv2.error"
      | Some g => Done (show_mask w1 (set_gray_image g s1) value (str_int value)) []
      end
  end.

(** A click on the next button: [goto_page2] if the button is enabled. *)
Definition click_next (goto_page2 : session -> outcome session) (w : window)
  : outcome window :=
  if next1_btn w then
    match goto_page2 (session_of w) with
    | Done s ui =>
        Done (mkWindow s (view1 w) (crop_btn w) (next1_btn w)
                (threshold_value_label w)) ui
    | Raised s exn =>
        Raised (mkWindow s (view1 w) (crop_btn w) (next1_btn w)
                  (threshold_value_label w)) exn
    end
  else Done w [].

End IO.

End Page1.

(** ** More sample inputs *)

Module MoreSamples.

Import CircularityCalculator Samples.


(** The dialog for the image of 8 x 6 pixels right after
    [_init_image_display], and after the left edge has been dragged from
    20 to 100. *)
Definition displayed : ImageCropDialog.dialog :=
  match ImageCropDialog._init_image_display label_size keep_aspect
          (ImageCropDialog.init (Some (black 8 6))) with
  | Done d _ => d
  | Raised d _ => d
  end.

Definition drag_left_edge : list ImageCropDialog.event :=
  [ImageCropDialog.Press ImageCropDialog.LeftButton 50 300;
   ImageCropDialog.Move 130 300;
   ImageCropDialog.Release ImageCropDialog.LeftButton].

Definition edited : ImageCropDialog.dialog :=
  match ImageCropDialog.run displayed drag_left_edge with
  | Some d => d
  | None => displayed
  end.

(** The dialog for the image of 8 x 6 pixels after a press on its left
    edge, and after the pointer has then moved 80 to the right. *)
Definition pressed : ImageCropDialog.dialog :=
  match ImageCropDialog.on_mouse_press wide_dialog
          ImageCropDialog.LeftButton 50 300 with
  | Some d => d
  | None => wide_dialog
  end.

Definition dragged : ImageCropDialog.dialog :=
  match ImageCropDialog.on_mouse_move pressed 130 300 with
  | Some d => d
  | None => pressed
  end.

(** A disk that holds the photograph under the name sand.png and nothing
    else, and the luminance of a pixel in 14-bit fixed point. *)
Definition disk (path : string) : option cimage :=
  if String.eqb path "sand.png" then Some sand else None.

Definition luminance (c : Z * Z * Z) : Z :=
  let '(b, g, r) := c in
  Z.shiftr (b * 1868 + g * 9617 + r * 4899 + 8192) 14.

(** A window before any upload (nothing shown in [view1]), and after the
    photograph has been uploaded. *)
Definition started : Page1.window :=
  Page1.mkWindow CircularityCalculator.init None false false "160".

Definition loaded : Page1.window :=
  match Page1.upload_image disk luminance started "sand.png" with
  | Done w _ => w
  | Raised w _ => w
  end.

End MoreSamples.

(** * Properties *)

(** ** Binarization *)

Section Binarization.

Import CircularityCalculator Samples.

Lemma pixel_map {P R : Type} (f : P -> R) (img : image P) (x y : nat) :
  pixel (List.map (List.map f) img) x y = option_map f (pixel img x y).
Proof.
  unfold pixel. rewrite nth_error_map.
  destruct (nth_error img y) as [row|]; simpl; [|reflexivity].
  apply nth_error_map.
Qed.

Lemma pixel_in_8bit (img : gimage) (x y : nat) (v : Z) :
  is_8bit img -> pixel img x y = Some v -> 0 <= v <= 255.
Proof.
  unfold is_8bit, pixel. intros H8 Hp.
  destruct (nth_error img y) as [row|] eqn:Hrow; [|discriminate].
  apply nth_error_In in Hrow. apply nth_error_In in Hp.
  rewrite Forall_forall in H8. specialize (H8 _ Hrow).
  rewrite Forall_forall in H8. exact (H8 _ Hp).
Qed.

(** C1, as the code has it: with a grayscale image loaded, the mask that
    [update_binary_image] stores has the pixels of the grayscale image
    and a pixel is foreground if and only if its grayscale value is at
    most the threshold (a pixel equal to the threshold is foreground).
    For an 8-bit image, threshold 255 makes every pixel foreground and
    threshold 0 makes foreground exactly the pixels of value 0. *)
Theorem update_binary_image_foreground_iff_le
    (s : session) (gray : gimage) (t : Z) :
  gray_image s = Some gray ->
  is_8bit gray ->
  0 <= t <= 255 ->
  exists mask,
    binary_image (update_binary_image s t) = Some mask
    /\ (forall x y, pixel mask x y = None <-> pixel gray x y = None)
    /\ (forall x y v, pixel gray x y = Some v ->
          exists m, pixel mask x y = Some m
                    /\ (m = 255 \/ m = 0)
                    /\ (foreground m = true <-> v <= t)
                    /\ (t = 255 -> foreground m = true)
                    /\ (t = 0 -> (foreground m = true <-> v = 0))).
Proof.
  intros Hg H8 Ht. unfold update_binary_image. rewrite Hg.
  exists (threshold_binary_inv gray t 255). split; [reflexivity|].
  unfold threshold_binary_inv. split.
  - intros x y. rewrite pixel_map.
    destruct (pixel gray x y); simpl; split; congruence.
  - intros x y v Hv. rewrite pixel_map, Hv. simpl.
    pose proof (pixel_in_8bit _ _ _ _ H8 Hv) as Hr.
    eexists. split; [reflexivity|].
    destruct (v >? t) eqn:Hc; unfold foreground; simpl.
    + apply Z.gtb_lt in Hc. repeat split; try (right; reflexivity);
        intros; try discriminate; lia.
    + assert (v <= t) by (pose proof (Zgt_cases v t) as G; rewrite Hc in G; lia).
      repeat split; try (left; reflexivity); intros; try reflexivity; lia.
Qed.

Lemma update_binary_image_foreground_iff_le_witness :
  exists mask,
    binary_image (update_binary_image (gray_session [[0; 160]; [161; 255]]) 160)
    = Some mask
    /\ (forall x y, pixel mask x y = None
                    <-> pixel [[0; 160]; [161; 255]] x y = None)
    /\ (forall x y v, pixel [[0; 160]; [161; 255]] x y = Some v ->
          exists m, pixel mask x y = Some m
                    /\ (m = 255 \/ m = 0)
                    /\ (foreground m = true <-> v <= 160)
                    /\ (160 = 255 -> foreground m = true)
                    /\ (160 = 0 -> (foreground m = true <-> v = 0))).
Proof.
  apply (update_binary_image_foreground_iff_le
           (gray_session [[0; 160]; [161; 255]]) [[0; 160]; [161; 255]] 160).
  - reflexivity.
  - unfold is_8bit. repeat constructor; lia.
  - lia.
Defined.

(** C1 as worded fails: with threshold 0 a black pixel (value 0, equal
    to the threshold) becomes foreground, so the mask is not
    all-background and "foreground iff value < threshold" is false. *)
Lemma update_binary_image_threshold_0_counterexample :
  binary_image (update_binary_image (gray_session [[0; 9]]) 0)
  = Some [[255; 0]]
  /\ pixel (P := Z) [[0; 9]] 0 0 = Some 0
  /\ pixel (P := Z) [[255; 0]] 0 0 = Some 255
  /\ foreground 255 = true
  /\ ~ (0 < 0).
Proof. repeat split. lia. Qed.

End Binarization.

(** ** The crop dialog: choosing the edge to drag *)

Section CropDrag.

Import ImageCropDialog CropRegion.

Lemma near_edge_left (d : dialog) (x y : Z) :
  (Z.abs (x - crop_left d) <=? drag_threshold)
  && (crop_top d <=? y) && (y <=? crop_bottom d) = true
  <-> near_edge d DragLeft x y.
Proof.
  simpl. rewrite !andb_true_iff, !Z.leb_le. tauto.
Qed.

Lemma near_edge_right (d : dialog) (x y : Z) :
  (Z.abs (x - crop_right d) <=? drag_threshold)
  && (crop_top d <=? y) && (y <=? crop_bottom d) = true
  <-> near_edge d DragRight x y.
Proof.
  simpl. rewrite !andb_true_iff, !Z.leb_le. tauto.
Qed.

Lemma near_edge_top (d : dialog) (x y : Z) :
  (Z.abs (y - crop_top d) <=? drag_threshold)
  && (crop_left d <=? x) && (x <=? crop_right d) = true
  <-> near_edge d DragTop x y.
Proof.
  simpl. rewrite !andb_true_iff, !Z.leb_le. tauto.
Qed.

Lemma near_edge_bottom (d : dialog) (x y : Z) :
  (Z.abs (y - crop_bottom d) <=? drag_threshold)
  && (crop_left d <=? x) && (x <=? crop_right d) = true
  <-> near_edge d DragBottom x y.
Proof.
  simpl. rewrite !andb_true_iff, !Z.leb_le. tauto.
Qed.

(** [_judge_drag_type] returns the first edge, in the order left, right,
    top, bottom, that the position is near, and [None] when it is near
    no edge. *)
Lemma judge_drag_type_first (d : dialog) (x y : Z) :
  match _judge_drag_type d x y with
  | Some e =>
      near_edge d e x y
      /\ forall e', (priority e' < priority e)%nat -> ~ near_edge d e' x y
  | None => forall e, ~ near_edge d e x y
  end.
Proof.
  unfold _judge_drag_type.
  pose proof (near_edge_left d x y) as HL.
  pose proof (near_edge_right d x y) as HR.
  pose proof (near_edge_top d x y) as HT.
  pose proof (near_edge_bottom d x y) as HB.
  destruct ((Z.abs (x - crop_left d) <=? drag_threshold)
            && (crop_top d <=? y) && (y <=? crop_bottom d)) eqn:EL.
  { split; [apply HL; reflexivity|]. intros [] Hp; simpl in Hp; lia. }
  destruct ((Z.abs (x - crop_right d) <=? drag_threshold)
            && (crop_top d <=? y) && (y <=? crop_bottom d)) eqn:ER.
  { split; [apply HR; reflexivity|].
    intros [] Hp Hn; simpl in Hp; try lia.
    apply HL in Hn. discriminate. }
  destruct ((Z.abs (y - crop_top d) <=? drag_threshold)
            && (crop_left d <=? x) && (x <=? crop_right d)) eqn:ET.
  { split; [apply HT; reflexivity|].
    intros [] Hp Hn; simpl in Hp; try lia.
    - apply HL in Hn. discriminate.
    - apply HR in Hn. discriminate. }
  destruct ((Z.abs (y - crop_bottom d) <=? drag_threshold)
            && (crop_left d <=? x) && (x <=? crop_right d)) eqn:EB.
  { split; [apply HB; reflexivity|].
    intros [] Hp Hn; simpl in Hp; try lia.
    - apply HL in Hn. discriminate.
    - apply HR in Hn. discriminate.
    - apply HT in Hn. discriminate. }
  intros [] Hn.
  - apply HL in Hn. discriminate.
  - apply HR in Hn. discriminate.
  - apply HT in Hn. discriminate.
  - apply HB in Hn. discriminate.
Qed.

Lemma update_mouse_cursor_fields (t : option edge) (d : dialog) :
  let d' := _update_mouse_cursor t d in
  original_image d' = original_image d
  /\ cropped_image d' = cropped_image d
  /\ is_dragging d' = is_dragging d
  /\ drag_type d' = drag_type d
  /\ crop_left d' = crop_left d /\ crop_top d' = crop_top d
  /\ crop_right d' = crop_right d /\ crop_bottom d' = crop_bottom d
  /\ scaled_qt_img d' = scaled_qt_img d
  /\ scale_w d' = scale_w d /\ scale_h d' = scale_h d.
Proof.
  destruct t as [[]|]; simpl; repeat split.
Qed.

(** C7: a left-button press at a position of the preview (the pointer
    position brought into the preview by [_get_valid_image_coords])
    starts a drag exactly when the position is near some edge; the edge
    dragged is then the first one, in the order left, right, top, bottom,
    that the position is near.  The rectangle itself is not changed. *)
Theorem on_mouse_press_enters_dragging
    (d : dialog) (mouse_x mouse_y x y : Z) :
  _get_valid_image_coords d mouse_x mouse_y = Some (x, y) ->
  exists d',
    on_mouse_press d LeftButton mouse_x mouse_y = Some d'
    /\ (is_dragging d' = true <-> exists e, near_edge d e x y)
    /\ (is_dragging d' = true <-> drag_type d' <> None)
    /\ (forall e,
          drag_type d' = Some e <->
          near_edge d e x y
          /\ forall e', (priority e' < priority e)%nat -> ~ near_edge d e' x y)
    /\ (forall e, edge_coord d' e = edge_coord d e).
Proof.
  intros Hc. unfold on_mouse_press. rewrite Hc.
  eexists. split; [reflexivity|].
  pose proof (judge_drag_type_first d x y) as HJ.
  pose proof (update_mouse_cursor_fields (_judge_drag_type d x y)
                (set_drag match _judge_drag_type d x y with
                          | Some _ => true
                          | None => false
                          end (_judge_drag_type d x y) d)) as HF.
  simpl in HF.
  destruct HF as (_ & _ & Hdrag & Htype & Hl & Ht & Hr & Hb & _).
  rewrite Hdrag, Htype.
  destruct (_judge_drag_type d x y) as [e0|].
  - destruct HJ as [Hnear Hfirst].
    split; [|split; [|split]].
    + split; [intros _; exists e0; exact Hnear | reflexivity].
    + split; [discriminate | reflexivity].
    + intros e. split.
      * intros H. inversion H. subst e. split; assumption.
      * intros [Hn He].
        destruct (Nat.lt_trichotomy (priority e) (priority e0))
          as [Hlt|[Heq|Hgt]].
        -- exfalso. exact (Hfirst e Hlt Hn).
        -- f_equal. destruct e, e0; simpl in Heq; congruence.
        -- exfalso. exact (He e0 Hgt Hnear).
    + intros []; simpl; assumption.
  - split; [|split; [|split]].
    + split; [discriminate|]. intros [e He]. exfalso. exact (HJ e He).
    + split; [discriminate|]. intros Hn. exfalso. apply Hn. reflexivity.
    + intros e. split; [discriminate|].
      intros [Hn _]. exfalso. exact (HJ e Hn).
    + intros []; simpl; assumption.
Qed.

End CropDrag.

(** ** The crop dialog: dragging an edge *)

Section CropEdit.

Import ImageCropDialog CropRegion Samples.

Lemma nearest_in_range (lo hi v : Z) :
  lo <= hi -> lo <= nearest lo hi v <= hi.
Proof.
  intros H. unfold nearest.
  destruct (v <? lo) eqn:E1; [lia|].
  destruct (hi <? v) eqn:E2; [lia|].
  apply Z.ltb_ge in E1. apply Z.ltb_ge in E2. lia.
Qed.

Lemma max_min_nearest (lo hi v : Z) :
  lo <= hi -> Z.max lo (Z.min v hi) = nearest lo hi v.
Proof.
  intros H. unfold nearest.
  destruct (v <? lo) eqn:E1; [apply Z.ltb_lt in E1; lia|].
  apply Z.ltb_ge in E1.
  destruct (hi <? v) eqn:E2; [apply Z.ltb_lt in E2; lia|].
  apply Z.ltb_ge in E2. lia.
Qed.

Lemma min_max_nearest (lo hi v : Z) :
  lo <= hi -> Z.min hi (Z.max v lo) = nearest lo hi v.
Proof.
  intros H. unfold nearest.
  destruct (v <? lo) eqn:E1; [apply Z.ltb_lt in E1; lia|].
  apply Z.ltb_ge in E1.
  destruct (hi <? v) eqn:E2; [apply Z.ltb_lt in E2; lia|].
  apply Z.ltb_ge in E2. lia.
Qed.

(** One call of [_update_crop_coords] on a rectangle that satisfies the
    invariant: the dragged edge goes to the point of its range nearest to
    the pointer, the other edges stay, and the invariant holds again. *)
Lemma update_crop_coords_inv (d : dialog) (e : edge) (x y img_w img_h : Z) :
  crop_inv d ->
  scaled_qt_img d = Some (img_w, img_h) ->
  drag_type d = Some e ->
  exists d',
    _update_crop_coords d x y = Some d'
    /\ edge_coord d' e
       = nearest (fst (edge_range d img_w img_h e))
           (snd (edge_range d img_w img_h e)) (along e x y)
    /\ (forall e', e' <> e -> edge_coord d' e' = edge_coord d e')
    /\ is_dragging d' = is_dragging d
    /\ drag_type d' = drag_type d
    /\ crop_inv d'.
Proof.
  intros (w & h & Hs & Hl & Hlr & Hr & Ht & Htb & Hb) Hs' He.
  rewrite Hs in Hs'. inversion Hs'. subst w h. clear Hs'.
  unfold _update_crop_coords. rewrite Hs, He.
  unfold min_crop_size in *.
  eexists. split; [reflexivity|].
  destruct e; simpl.
  - rewrite max_min_nearest by lia.
    pose proof (nearest_in_range 0 (crop_right d - 20) x ltac:(lia)).
    repeat split; try reflexivity; try assumption.
    + intros []; simpl; congruence.
    + exists img_w, img_h. simpl. unfold min_crop_size.
      repeat split; try assumption; lia.
  - rewrite min_max_nearest by lia.
    pose proof (nearest_in_range (crop_left d + 20) img_w x ltac:(lia)).
    repeat split; try reflexivity; try assumption.
    + intros []; simpl; congruence.
    + exists img_w, img_h. simpl. unfold min_crop_size.
      repeat split; try assumption; lia.
  - rewrite max_min_nearest by lia.
    pose proof (nearest_in_range 0 (crop_bottom d - 20) y ltac:(lia)).
    repeat split; try reflexivity; try assumption.
    + intros []; simpl; congruence.
    + exists img_w, img_h. simpl. unfold min_crop_size.
      repeat split; try assumption; lia.
  - rewrite min_max_nearest by lia.
    pose proof (nearest_in_range (crop_top d + 20) img_h y ltac:(lia)).
    repeat split; try reflexivity; try assumption.
    + intros []; simpl; congruence.
    + exists img_w, img_h. simpl. unfold min_crop_size.
      repeat split; try assumption; lia.
Qed.

Lemma crop_inv_ext (d d' : dialog) :
  scaled_qt_img d' = scaled_qt_img d ->
  crop_left d' = crop_left d -> crop_top d' = crop_top d ->
  crop_right d' = crop_right d -> crop_bottom d' = crop_bottom d ->
  crop_inv d -> crop_inv d'.
Proof.
  intros Hs Hl Ht Hr Hb (w & h & H). exists w, h.
  rewrite Hs, Hl, Ht, Hr, Hb. exact H.
Qed.

Lemma crop_inv_cursor (t : option edge) (d : dialog) :
  crop_inv d -> crop_inv (_update_mouse_cursor t d).
Proof.
  destruct (update_mouse_cursor_fields t d)
    as (_ & _ & _ & _ & Hl & Ht & Hr & Hb & Hs & _).
  apply crop_inv_ext; assumption.
Qed.

Lemma crop_inv_drag (b : bool) (t : option edge) (d : dialog) :
  crop_inv d -> crop_inv (set_drag b t d).
Proof. apply crop_inv_ext; reflexivity. Qed.

Lemma valid_image_coords_total (d : dialog) (mouse_x mouse_y : Z) :
  crop_inv d ->
  exists x y, _get_valid_image_coords d mouse_x mouse_y = Some (x, y).
Proof.
  intros (w & h & Hs & _). unfold _get_valid_image_coords. rewrite Hs.
  eexists _, _. reflexivity.
Qed.

(** Every pointer event keeps the invariant. *)
Lemma step_crop_inv (d : dialog) (e : event) :
  crop_inv d -> exists d', step d e = Some d' /\ crop_inv d'.
Proof.
  intros Hinv. destruct e as [b x y|x y|b]; simpl.
  - unfold on_mouse_press. destruct b.
    + destruct (valid_image_coords_total d x y Hinv) as (ix & iy & Hc).
      rewrite Hc. eexists. split; [reflexivity|].
      apply crop_inv_cursor, crop_inv_drag, Hinv.
    + exists d. split; [reflexivity | exact Hinv].
  - unfold on_mouse_move.
    destruct (valid_image_coords_total d x y Hinv) as (ix & iy & Hc).
    rewrite Hc.
    destruct (is_dragging d) eqn:Hd.
    + destruct (drag_type d) as [t|] eqn:Ht.
      * destruct Hinv as (w & h & Hs & Hrest).
        destruct (update_crop_coords_inv d t ix iy w h
                    (ex_intro _ w (ex_intro _ h (conj Hs Hrest))) Hs Ht)
          as (d' & Hu & _ & _ & _ & _ & Hinv').
        exists d'. split; assumption.
      * eexists. split; [reflexivity|]. apply crop_inv_cursor, Hinv.
    + eexists. split; [reflexivity|]. apply crop_inv_cursor, Hinv.
  - eexists. split; [reflexivity|]. unfold on_mouse_release.
    destruct b; [apply crop_inv_cursor, crop_inv_drag, Hinv | exact Hinv].
Qed.

Lemma run_crop_inv (es : list event) (d : dialog) :
  crop_inv d -> exists d', run d es = Some d' /\ crop_inv d'.
Proof.
  revert d. induction es as [|e es IH]; intros d Hinv; simpl.
  - exists d. split; [reflexivity | exact Hinv].
  - destruct (step_crop_inv d e Hinv) as (d1 & Hstep & Hinv1).
    rewrite Hstep. apply IH, Hinv1.
Qed.

(** The rectangle that [_init_image_display] sets satisfies the invariant
    when the preview is at least 60 wide and 60 high. *)
Lemma init_image_display_crop_inv
    (label : Z * Z) (scaled : Z -> Z -> Z * Z)
    (d0 : dialog) (img : cimage) (img_w img_h : Z) :
  original_image d0 = Some img ->
  scaled (shape_w img) (shape_h img) = (img_w, img_h) ->
  60 <= img_w -> 60 <= img_h ->
  exists d, _init_image_display label scaled d0 = Done d [] /\ crop_inv d.
Proof.
  intros Ho Hs Hw Hh. unfold _init_image_display. rewrite Ho, Hs.
  destruct (img_w =? 0) eqn:E1; [apply Z.eqb_eq in E1; lia|].
  destruct (img_h =? 0) eqn:E2; [apply Z.eqb_eq in E2; lia|].
  simpl. eexists. split; [reflexivity|].
  exists img_w, img_h. simpl. unfold min_crop_size. repeat split; lia.
Qed.

(** C6, as the code has it.  The initial rectangle of a preview that is
    at least 60 wide and 60 high lies inside the preview and is at least
    20 wide and high.  From a rectangle with that property, a pointer
    move during a drag puts the dragged edge at the point nearest to the
    pointer in the interval from 0 (or from the opposite edge plus 20) to
    the opposite edge minus 20 (or to the preview extent), leaves the
    three other edges where they are and keeps the property; and after
    every sequence of pointer events right - left >= 20 and
    bottom - top >= 20 hold, so the left edge is never past right - 20. *)
Theorem crop_edit_keeps_min_size :
  (forall label scaled d0 img img_w img_h,
      original_image d0 = Some img ->
      scaled (shape_w img) (shape_h img) = (img_w, img_h) ->
      60 <= img_w -> 60 <= img_h ->
      exists d, _init_image_display label scaled d0 = Done d [] /\ crop_inv d)
  /\ (forall d,
        crop_inv d ->
        (forall e mouse_x mouse_y,
            is_dragging d = true ->
            drag_type d = Some e ->
            exists d' img_w img_h x y lo hi,
              scaled_qt_img d = Some (img_w, img_h)
              /\ _get_valid_image_coords d mouse_x mouse_y = Some (x, y)
              /\ edge_range d img_w img_h e = (lo, hi)
              /\ on_mouse_move d mouse_x mouse_y = Some d'
              /\ edge_coord d' e = nearest lo hi (along e x y)
              /\ lo <= edge_coord d' e <= hi
              /\ (forall e', e' <> e -> edge_coord d' e' = edge_coord d e')
              /\ crop_inv d')
        /\ (forall es,
              exists d',
                run d es = Some d'
                /\ crop_inv d'
                /\ crop_right d' - crop_left d' >= min_crop_size
                /\ crop_bottom d' - crop_top d' >= min_crop_size
                /\ crop_left d' <= crop_right d' - min_crop_size)).
Proof.
  split.
  - intros. eapply init_image_display_crop_inv; eassumption.
  - intros d Hinv. split.
    + intros e mx my Hdrag He.
      destruct (valid_image_coords_total d mx my Hinv) as (x & y & Hc).
      pose proof Hinv as (w & h & Hs & Hl & Hlr & Hr & Ht & Htb & Hb).
      destruct (update_crop_coords_inv d e x y w h Hinv Hs He)
        as (d' & Hu & Hmoved & Hothers & _ & _ & Hinv').
      exists d', w, h, x, y, (fst (edge_range d w h e)),
        (snd (edge_range d w h e)).
      split; [exact Hs|]. split; [exact Hc|].
      split; [destruct (edge_range d w h e); reflexivity|].
      split; [unfold on_mouse_move; rewrite Hc, Hdrag, He; exact Hu|].
      split; [exact Hmoved|].
      split; [|split; assumption].
      rewrite Hmoved. apply nearest_in_range.
      unfold min_crop_size in *. destruct e; simpl; unfold min_crop_size; lia.
    + intros es. destruct (run_crop_inv es d Hinv) as (d' & Hrun & Hinv').
      exists d'. split; [exact Hrun|]. split; [exact Hinv'|].
      destruct Hinv' as (w & h & _ & Hl & Hlr & Hr & Ht & Htb & Hb).
      unfold min_crop_size in *. lia.
Qed.

End CropEdit.

(** ** The crop dialog: committing the rectangle *)

Section CropCommit.

Import ImageCropDialog CropRegion Samples.

Lemma py_int_nonneg (q : Q) : 0 <= Qnum q -> py_int q = Qfloor q.
Proof.
  intros H. destruct q as [n p]. unfold py_int, Qfloor. simpl in *.
  apply Z.quot_div_nonneg; lia.
Qed.

Lemma py_int_nonpos (q : Q) : Qnum q <= 0 -> py_int q = Qceiling q.
Proof.
  intros H. destruct q as [n p]. unfold py_int, Qceiling, Qfloor. simpl in *.
  replace n with (- (- n)) at 1 by lia.
  rewrite Z.quot_opp_l by lia.
  rewrite Z.quot_div_nonneg by lia. reflexivity.
Qed.

(** [int] goes toward zero: it is the floor of a non-negative value and
    the ceiling of a non-positive one. *)
Lemma py_int_truncates (q : Q) :
  ((0 <= q)%Q -> (inject_Z (py_int q) <= q)%Q
                 /\ (q < inject_Z (py_int q + 1))%Q)
  /\ ((q <= 0)%Q -> (inject_Z (py_int q - 1) < q)%Q
                    /\ (q <= inject_Z (py_int q))%Q).
Proof.
  split; intros H.
  - rewrite py_int_nonneg.
    + split; [apply Qfloor_le | apply Qlt_floor].
    + unfold Qle in H. simpl in H. lia.
  - rewrite py_int_nonpos.
    + split; [apply Qceiling_lt | apply Qle_ceiling].
    + unfold Qle in H. simpl in H. lia.
Qed.

Lemma py_int_le_mono (a b : Q) : (a <= b)%Q -> py_int a <= py_int b.
Proof.
  intros H.
  destruct (Z.le_gt_cases 0 (Qnum a)) as [Ha|Ha];
    destruct (Z.le_gt_cases 0 (Qnum b)) as [Hb|Hb].
  - rewrite !py_int_nonneg by assumption. apply Qfloor_resp_le, H.
  - exfalso. unfold Qle in H.
    assert (Qnum b * Zpos (Qden a) < 0) by nia.
    assert (0 <= Qnum a * Zpos (Qden b)) by nia. lia.
  - rewrite (py_int_nonpos a) by lia. rewrite (py_int_nonneg b) by assumption.
    transitivity 0.
    + change 0 with (Qceiling 0). apply Qceiling_resp_le.
      unfold Qle. simpl. lia.
    + change 0 with (Qfloor 0). apply Qfloor_resp_le.
      unfold Qle. simpl. lia.
  - rewrite !py_int_nonpos by lia. apply Qceiling_resp_le, H.
Qed.

Lemma scaled_coord_le_mono (a b : Z) (s : Q) :
  a <= b -> (0 <= s)%Q ->
  py_int (inject_Z a * s) <= py_int (inject_Z b * s).
Proof.
  intros Hab Hs. apply py_int_le_mono.
  apply Qmult_le_compat_r; [|exact Hs].
  rewrite <- Zle_Qle. exact Hab.
Qed.

(** A slice with bounds already in range. *)
Lemma py_slice_in_range {A : Type} (l : list A) (lo hi : Z) :
  0 <= lo <= hi -> hi <= Z.of_nat (List.length l) ->
  py_slice l lo hi
  = firstn (Z.to_nat (hi - lo)) (skipn (Z.to_nat lo) l).
Proof.
  intros H1 H2. unfold py_slice, slice_bound.
  destruct (lo <? 0) eqn:E1; [apply Z.ltb_lt in E1; lia|].
  destruct (hi <? 0) eqn:E2; [apply Z.ltb_lt in E2; lia|].
  replace (Z.max 0 (Z.min lo (Z.of_nat (List.length l)))) with lo by lia.
  replace (Z.max 0 (Z.min hi (Z.of_nat (List.length l)))) with hi by lia.
  reflexivity.
Qed.

Lemma py_slice_length {A : Type} (l : list A) (lo hi : Z) :
  0 <= lo <= hi -> hi <= Z.of_nat (List.length l) ->
  Z.of_nat (List.length (py_slice l lo hi)) = hi - lo.
Proof.
  intros H1 H2. rewrite py_slice_in_range by assumption.
  rewrite length_firstn, length_skipn. lia.
Qed.

Lemma py_slice_nth {A : Type} (l : list A) (lo hi : Z) (i : nat) :
  0 <= lo <= hi -> hi <= Z.of_nat (List.length l) ->
  Z.of_nat i < hi - lo ->
  nth_error (py_slice l lo hi) i = nth_error l (i + Z.to_nat lo).
Proof.
  intros H1 H2 H3. rewrite py_slice_in_range by assumption.
  rewrite nth_error_firstn.
  destruct (Nat.ltb_spec i (Z.to_nat (hi - lo))) as [_|Hge]; [|lia].
  rewrite nth_error_skipn. f_equal. lia.
Qed.

(** The crop of a rectangle that lies in the image: its size and its
    pixels are those of the rectangle. *)
Lemma crop_in_range {P : Type} (img : image P) (top bottom left right : Z) :
  rectangular img ->
  0 <= top <= bottom -> bottom <= shape_h img ->
  0 <= left <= right -> right <= shape_w img ->
  shape_h (crop img top bottom left right) = bottom - top
  /\ Forall (fun row => Z.of_nat (List.length row) = right - left)
       (crop img top bottom left right)
  /\ forall x y : nat,
      Z.of_nat x < right - left -> Z.of_nat y < bottom - top ->
      pixel (crop img top bottom left right) x y
      = pixel img (x + Z.to_nat left) (y + Z.to_nat top).
Proof.
  intros Hrect Ht Hb Hl Hr. unfold shape_h in *.
  assert (Hrows : forall row, In row (py_slice img top bottom) ->
                              Z.of_nat (List.length row) = shape_w img).
  { intros row Hin. rewrite py_slice_in_range in Hin by assumption.
    unfold rectangular in Hrect. rewrite Forall_forall in Hrect.
    apply Hrect.
    rewrite <- (firstn_skipn (Z.to_nat top) img). apply in_or_app. right.
    rewrite <- (firstn_skipn (Z.to_nat (bottom - top))
                  (skipn (Z.to_nat top) img)).
    apply in_or_app. left. exact Hin. }
  unfold crop. split; [|split].
  - rewrite length_map. apply py_slice_length; assumption.
  - rewrite Forall_forall. intros row Hin.
    apply in_map_iff in Hin. destruct Hin as (r0 & <- & Hin0).
    apply py_slice_length; [assumption|]. rewrite (Hrows _ Hin0). exact Hr.
  - intros x y Hx Hy. unfold pixel.
    rewrite nth_error_map, py_slice_nth by assumption.
    destruct (nth_error img (y + Z.to_nat top)) as [row|] eqn:Hrow;
      simpl; [|reflexivity].
    apply py_slice_nth; [assumption| |assumption].
    unfold rectangular in Hrect. rewrite Forall_forall in Hrect.
    rewrite (Hrect row (nth_error_In _ _ Hrow)). exact Hr.
Qed.

(** On a rectangle with left <= right and top <= bottom, and scale
    factors that are not negative, [on_confirm_crop] maps the four
    coordinates by scaling and truncating, refuses the commit with the
    out-of-range warning exactly when the mapped rectangle does not lie in
    the original image, and otherwise stores and emits the pixels of the
    mapped rectangle. *)
Lemma on_confirm_crop_well_formed
    (d : dialog) (img : cimage) (preview : Z * Z) :
  original_image d = Some img ->
  scaled_qt_img d = Some preview ->
  rectangular img ->
  crop_left d <= crop_right d ->
  crop_top d <= crop_bottom d ->
  (0 <= scale_w d)%Q ->
  (0 <= scale_h d)%Q ->
  exists x0 y0 x1 y1,
    mapped_rect d = (x0, y0, x1, y1)
    /\ x0 = py_int (inject_Z (crop_left d) * scale_w d)
    /\ y0 = py_int (inject_Z (crop_top d) * scale_h d)
    /\ x1 = py_int (inject_Z (crop_right d) * scale_w d)
    /\ y1 = py_int (inject_Z (crop_bottom d) * scale_h d)
    /\ (~ within (shape_w img) (shape_h img) (x0, y0, x1, y1) ->
        on_confirm_crop d
        = Done d [Warning "警告" "剪裁区域超出原始图像范围！"])
    /\ (within (shape_w img) (shape_h img) (x0, y0, x1, y1) ->
        exists c,
          on_confirm_crop d
          = Done (set_cropped_image c d)
              [Emit c; Information "提示" "剪裁成功"; Accept]
          /\ shape_h c = y1 - y0
          /\ Forall (fun row => Z.of_nat (List.length row) = x1 - x0) c
          /\ forall x y : nat,
              Z.of_nat x < x1 - x0 -> Z.of_nat y < y1 - y0 ->
              pixel c x y = pixel img (x + Z.to_nat x0) (y + Z.to_nat y0)).
Proof.
  intros Ho Hs Hrect Hlr Htb Hsw Hsh.
  pose proof (scaled_coord_le_mono _ _ _ Hlr Hsw) as Hx.
  pose proof (scaled_coord_le_mono _ _ _ Htb Hsh) as Hy.
  unfold on_confirm_crop, mapped_rect. rewrite Ho, Hs.
  set (x0 := py_int (inject_Z (crop_left d) * scale_w d)) in *.
  set (y0 := py_int (inject_Z (crop_top d) * scale_h d)) in *.
  set (x1 := py_int (inject_Z (crop_right d) * scale_w d)) in *.
  set (y1 := py_int (inject_Z (crop_bottom d) * scale_h d)) in *.
  exists x0, y0, x1, y1. repeat (split; [reflexivity|]).
  unfold within.
  destruct ((x0 <? 0) || (y0 <? 0) || (x1 >? shape_w img)
            || (y1 >? shape_h img)) eqn:Hchk.
  - split; [reflexivity|]. intros Hin. exfalso.
    rewrite !orb_true_iff, !Z.ltb_lt, !Z.gtb_lt in Hchk. lia.
  - rewrite !orb_false_iff, !Z.ltb_ge in Hchk.
    destruct Hchk as [[[H1 H2] H3] H4].
    assert (x1 <= shape_w img)
      by (pose proof (Zgt_cases x1 (shape_w img)) as G; rewrite H3 in G; lia).
    assert (y1 <= shape_h img)
      by (pose proof (Zgt_cases y1 (shape_h img)) as G; rewrite H4 in G; lia).
    split; [intros Hout; exfalso; apply Hout; lia|].
    intros _. eexists. split; [reflexivity|].
    apply crop_in_range; (assumption || lia).
Qed.

End CropCommit.

(** ** The crop dialog on the sample images *)

Section CropOnSamples.

Import ImageCropDialog CropRegion Samples.

Lemma wide_dialog_crop_inv : crop_inv wide_dialog.
Proof.
  exists 720, 540. vm_compute. repeat split; congruence.
Qed.

(** A press at the top left corner of the rectangle of [wide_dialog] is
    near the left and the top edge; the left edge is taken. *)
Lemma on_mouse_press_enters_dragging_witness :
  exists d',
    on_mouse_press wide_dialog LeftButton 50 20 = Some d'
    /\ (is_dragging d' = true <-> exists e, near_edge wide_dialog e 20 20)
    /\ (is_dragging d' = true <-> drag_type d' <> None)
    /\ (forall e,
          drag_type d' = Some e <->
          near_edge wide_dialog e 20 20
          /\ forall e', (priority e' < priority e)%nat ->
                        ~ near_edge wide_dialog e' 20 20)
    /\ (forall e, edge_coord d' e = edge_coord wide_dialog e).
Proof.
  apply (on_mouse_press_enters_dragging wide_dialog 50 20 20 20).
  vm_compute. reflexivity.
Defined.

Lemma crop_edit_keeps_min_size_witness :
  (forall e mouse_x mouse_y,
      is_dragging wide_dialog = true ->
      drag_type wide_dialog = Some e ->
      exists d' img_w img_h x y lo hi,
        scaled_qt_img wide_dialog = Some (img_w, img_h)
        /\ _get_valid_image_coords wide_dialog mouse_x mouse_y = Some (x, y)
        /\ edge_range wide_dialog img_w img_h e = (lo, hi)
        /\ on_mouse_move wide_dialog mouse_x mouse_y = Some d'
        /\ edge_coord d' e = nearest lo hi (along e x y)
        /\ lo <= edge_coord d' e <= hi
        /\ (forall e', e' <> e ->
                       edge_coord d' e' = edge_coord wide_dialog e')
        /\ crop_inv d')
  /\ (forall es,
        exists d',
          run wide_dialog es = Some d'
          /\ crop_inv d'
          /\ crop_right d' - crop_left d' >= min_crop_size
          /\ crop_bottom d' - crop_top d' >= min_crop_size
          /\ crop_left d' <= crop_right d' - min_crop_size).
Proof.
  apply (proj2 crop_edit_keeps_min_size wide_dialog).
  exists 720, 540. vm_compute. repeat split; congruence.
Defined.

(** C6 as worded fails on a narrow preview.  The dialog shown for a strip
    of 10 x 200 pixels has a preview of 27 x 540 and the rectangle
    left = 20, right = 7.  Pressing on the left edge and moving the
    pointer 5 to the left puts the left edge at 0: the rectangle is 7
    wide, and the left edge is past right - 20. *)
Lemma crop_edit_narrow_preview_counterexample :
  scaled_qt_img strip_dialog = Some (27, 540)
  /\ crop_left strip_dialog = 20
  /\ crop_right strip_dialog = 7
  /\ exists d1 d2,
      on_mouse_press strip_dialog LeftButton 396 100 = Some d1
      /\ is_dragging d1 = true
      /\ drag_type d1 = Some DragLeft
      /\ on_mouse_move d1 391 100 = Some d2
      /\ crop_left d2 = 0
      /\ crop_right d2 = 7
      /\ ~ (crop_right d2 - crop_left d2 >= min_crop_size)
      /\ ~ (crop_left d2 <= crop_right d2 - min_crop_size)
      /\ ~ (0 <= crop_left d2 <= crop_right d1 - min_crop_size).
Proof.
  repeat (split; [vm_compute; reflexivity|]).
  eexists. eexists.
  repeat (split; [vm_compute; reflexivity|]).
  vm_compute. repeat split; intros H; try destruct H; congruence.
Qed.

(** C8 at a thin image.  The dialog shown for a strip of 19 x 600 pixels
    has a preview of 17 x 540 and the rectangle left = 20, right = -3.
    The mapped rectangle has the columns 22 to -3, outside the 19 columns
    of the image, yet the commit goes through: an image of 555 rows and
    no columns is stored and emitted and success is reported. *)
Theorem on_confirm_crop_rectangle_outside_image :
  original_image thin_dialog = Some (black 19 600)
  /\ scaled_qt_img thin_dialog = Some (17, 540)
  /\ (crop_left thin_dialog, crop_top thin_dialog,
      crop_right thin_dialog, crop_bottom thin_dialog) = (20, 20, -3, 520)
  /\ mapped_rect thin_dialog = (22, 22, -3, 577)
  /\ ~ within 19 600 (22, 22, -3, 577)
  /\ on_confirm_crop thin_dialog
     = Done (set_cropped_image (repeat [] 555) thin_dialog)
         [Emit (repeat [] 555); Information "提示" "剪裁成功"; Accept].
Proof.
  repeat (split; [vm_compute; reflexivity|]).
  split.
  - unfold within. lia.
  - vm_compute. reflexivity.
Qed.

End CropOnSamples.

(** ** Extraction of particles ([goto_page2]) *)

Section Extraction.

Import CircularityCalculator Particles.

Variable findContours : gimage -> list contour.
Variable arcLength : contour -> Q.
Variable contourArea : contour -> Q.
Variable moments : contour -> Q * Q * Q.

Abbreviation accepted := (accepted arcLength contourArea).
Abbreviation acceptedb := (acceptedb arcLength contourArea).
Abbreviation particle_of := (particle_of arcLength contourArea).
Abbreviation extracted := (extracted arcLength contourArea).
Abbreviation goto_page2 :=
  (goto_page2 findContours arcLength contourArea moments).

Lemma acceptedb_spec (c : contour) : acceptedb c = true <-> accepted c.
Proof.
  unfold Particles.acceptedb, Particles.accepted.
  rewrite negb_true_iff, orb_false_iff. split.
  - intros [H1 H2]. split; apply Qnot_le_lt; intros H;
      apply Qle_bool_iff in H; congruence.
  - intros [H1 H2]. split; apply not_true_is_false; intros H;
      apply Qle_bool_iff in H;
      [exact (Qlt_not_le _ _ H1 H) | exact (Qlt_not_le _ _ H2 H)].
Qed.

Lemma drawn_contours_draw (s : stroke) (cv : canvas) :
  drawn_contours (draw s cv)
  = drawn_contours cv ++ match s with
                         | DrawContour c => [c]
                         | PutText _ _ _ _ _ => []
                         end.
Proof.
  unfold drawn_contours, draw. simpl. rewrite flat_map_app. simpl.
  rewrite app_nil_r. reflexivity.
Qed.

Lemma drawn_contours_put_label (c : contour) (circ a l : Q) (cv : canvas) :
  drawn_contours (put_label moments c circ a l cv) = drawn_contours cv.
Proof.
  unfold put_label. destruct (moments c) as [[m00 m10] m01].
  destruct (negb (Qle_bool m00 0)); [|reflexivity].
  rewrite drawn_contours_draw. apply app_nil_r.
Qed.

Lemma base_put_label (c : contour) (circ a l : Q) (cv : canvas) :
  base (put_label moments c circ a l cv) = base cv.
Proof.
  unfold put_label. destruct (moments c) as [[m00 m10] m01].
  destruct (negb (Qle_bool m00 0)); reflexivity.
Qed.

(** The loop body: nothing for a contour that fails the check, one record
    and one outline for a contour that passes it. *)
Lemma extract_step_spec (idx : Z) (c : contour) (acc : list particle * canvas) :
  let acc' := extract_step arcLength contourArea moments idx c acc in
  fst acc' = fst acc ++ (if acceptedb c then [particle_of idx c] else [])
  /\ drawn_contours (snd acc')
     = drawn_contours (snd acc) ++ (if acceptedb c then [c] else []).
Proof.
  unfold extract_step, Particles.acceptedb.
  destruct (Qle_bool (arcLength c) 0 || Qle_bool (contourArea c) 0); simpl.
  - rewrite !app_nil_r. split; reflexivity.
  - split; [reflexivity|].
    rewrite drawn_contours_put_label, drawn_contours_draw. reflexivity.
Qed.

Lemma extract_loop_spec (contours : list contour) :
  forall (idx : Z) (acc : list particle * canvas),
    let acc' :=
      extract_loop arcLength contourArea moments idx contours acc in
    fst acc'
    = fst acc
      ++ List.map (fun ic => particle_of (fst ic) (snd ic))
           (List.filter (fun ic => acceptedb (snd ic))
              (enumerate idx contours))
    /\ drawn_contours (snd acc')
       = drawn_contours (snd acc) ++ List.filter acceptedb contours.
Proof.
  induction contours as [|c cs IH]; intros idx acc; simpl.
  - rewrite !app_nil_r. split; reflexivity.
  - destruct (IH (idx + 1)
                (extract_step arcLength contourArea moments idx c acc))
      as [IH1 IH2].
    destruct (extract_step_spec idx c acc) as [S1 S2].
    rewrite IH1, IH2, S1, S2.
    destruct (acceptedb c); simpl; rewrite <- !app_assoc; split; reflexivity.
Qed.

Lemma enumerate_In {A : Type} (l : list A) :
  forall (start i : Z) (a : A),
    In (i, a) (enumerate start l)
    <-> exists n, i = start + Z.of_nat n /\ nth_error l n = Some a.
Proof.
  induction l as [|b l IH]; intros start i a; simpl.
  - split; [tauto|]. intros [[|n] [_ H]]; discriminate.
  - rewrite IH. split.
    + intros [H|(n & Hi & Hn)].
      * inversion H. subst. exists 0%nat. split; [lia | reflexivity].
      * exists (S n). split; [lia | exact Hn].
    + intros ([|n] & Hi & Hn).
      * left. simpl in Hn. inversion Hn. f_equal. lia.
      * right. exists n. split; [lia | exact Hn].
Qed.

Lemma enumerate_sorted {A : Type} (f : Z * A -> bool) (l : list A) :
  forall start : Z,
    StronglySorted Z.lt (List.map fst (List.filter f (enumerate start l)))
    /\ Forall (fun i => start <= i)
         (List.map fst (List.filter f (enumerate start l))).
Proof.
  induction l as [|a l IH]; intros start; simpl.
  - split; constructor.
  - destruct (IH (start + 1)) as [Hs Hge].
    assert (Hge' : Forall (fun i => start < i)
                     (List.map fst (List.filter f (enumerate (start + 1) l)))).
    { eapply Forall_impl; [|exact Hge]. simpl. intros; lia. }
    destruct (f (start, a)); simpl.
    + split.
      * constructor; assumption.
      * constructor; [lia|]. eapply Forall_impl; [|exact Hge'].
        simpl. intros; lia.
    + split; [exact Hs|]. eapply Forall_impl; [|exact Hge'].
      simpl. intros; lia.
Qed.

Lemma extract_loop_base (cs : list contour) :
  forall (idx : Z) (acc : list particle * canvas),
    base (snd (extract_loop arcLength contourArea moments idx cs acc))
    = base (snd acc).
Proof.
  induction cs as [|c cs IH]; intros idx acc; simpl; [reflexivity|].
  rewrite IH. unfold extract_step.
  destruct (Qle_bool (arcLength c) 0 || Qle_bool (contourArea c) 0);
    [reflexivity|]. simpl. rewrite base_put_label. reflexivity.
Qed.

(** With a mask and an image to draw on, [goto_page2] returns without a
    message; the records are those of the accepted contours and the
    outlines drawn are the accepted contours. *)
Lemma goto_page2_done (s : session) (mask : gimage) (img : cimage) :
  binary_image s = Some mask ->
  target_original s = Some img ->
  exists s' cv,
    goto_page2 s = Done s' []
    /\ particle_data s' = extracted (findContours mask)
    /\ table s' = particle_data s'
    /\ processed_image s' = Some cv
    /\ base cv = img
    /\ drawn_contours cv = List.filter acceptedb (findContours mask)
    /\ binary_image s' = binary_image s
    /\ original_image s' = original_image s
    /\ cropped_image s' = cropped_image s
    /\ original_image_path s' = original_image_path s.
Proof.
  intros Hm Hi. unfold CircularityCalculator.goto_page2. rewrite Hm, Hi.
  destruct (extract_loop_spec (findContours mask) 1 ([], copy img))
    as [H1 H2].
  assert (Hb : base (snd (extract_loop arcLength contourArea moments 1
                            (findContours mask) ([], copy img))) = img).
  { rewrite extract_loop_base. reflexivity. }
  destruct (extract_loop arcLength contourArea moments 1 (findContours mask)
              ([], copy img)) as [data cv].
  simpl in *. exists (mkSession (original_image_path s) (original_image s)
                        (cropped_image s) (gray_image s) (Some mask)
                        (Some cv) data (current_threshold s)
                        (filtered_particle_data s) data (Some cv)
                        (view3 s) 1), cv.
  simpl. repeat split; try assumption; try reflexivity.
Qed.

Lemma extracted_In (contours : list contour) (p : particle) :
  In p (extracted contours)
  <-> exists n c,
        nth_error contours n = Some c
        /\ accepted c
        /\ p = particle_of (Z.of_nat n + 1) c.
Proof.
  unfold Particles.extracted. rewrite in_map_iff. split.
  - intros ([i c] & Hp & Hin). apply filter_In in Hin.
    destruct Hin as [Hin Hacc]. simpl in *.
    apply enumerate_In in Hin. destruct Hin as (n & Hi & Hn).
    exists n, c. split; [exact Hn|]. split; [apply acceptedb_spec, Hacc|].
    subst. f_equal. lia.
  - intros (n & c & Hn & Hacc & Hp).
    exists (Z.of_nat n + 1, c). split; [symmetry; exact Hp|].
    apply filter_In. split.
    + apply enumerate_In. exists n. split; [lia | exact Hn].
    + simpl. apply acceptedb_spec, Hacc.
Qed.

Lemma extracted_indices (contours : list contour) :
  List.map index (extracted contours)
  = List.map fst
      (List.filter (fun ic => acceptedb (snd ic)) (enumerate 1 contours)).
Proof.
  unfold Particles.extracted. rewrite map_map. reflexivity.
Qed.

Lemma filter_enumerate_length {A : Type} (f : A -> bool) (l : list A) :
  forall start : Z,
    List.length (List.filter (fun ic => f (snd ic)) (enumerate start l))
    = List.length (List.filter f l).
Proof.
  induction l as [|a l IH]; intros start; simpl; [reflexivity|].
  destruct (f a); simpl; rewrite IH; reflexivity.
Qed.

(** C3: for every mask (and an image to draw on), [goto_page2] returns
    without any message; a record exists exactly for the contours whose
    perimeter and area are both strictly positive, one per such contour;
    a contour that fails the check has no record (no record carries its
    number) and no outline, and the table shows the records. *)
Theorem goto_page2_only_positive_contours
    (s : session) (mask : gimage) (img : cimage) :
  binary_image s = Some mask ->
  target_original s = Some img ->
  exists s' cv,
    goto_page2 s = Done s' []
    /\ (forall p,
          In p (particle_data s')
          <-> exists n c,
                nth_error (findContours mask) n = Some c
                /\ (0 < arcLength c)%Q /\ (0 < contourArea c)%Q
                /\ p = particle_of (Z.of_nat n + 1) c)
    /\ List.length (particle_data s')
       = List.length (List.filter acceptedb (findContours mask))
    /\ (forall n c,
          nth_error (findContours mask) n = Some c ->
          ~ ((0 < arcLength c)%Q /\ (0 < contourArea c)%Q) ->
          (forall p, In p (particle_data s') -> index p <> Z.of_nat n + 1)
          /\ acceptedb c = false)
    /\ table s' = particle_data s'
    /\ processed_image s' = Some cv
    /\ drawn_contours cv = List.filter acceptedb (findContours mask).
Proof.
  intros Hm Hi.
  destruct (goto_page2_done s mask img Hm Hi)
    as (s' & cv & Hrun & Hdata & Htable & Hproc & _ & Hdrawn & _).
  exists s', cv. split; [exact Hrun|]. rewrite Hdata.
  split; [|split; [|split; [|split; [|split]]]].
  - intros p. rewrite extracted_In. unfold Particles.accepted.
    split; intros (n & c & H); exists n, c; tauto.
  - unfold Particles.extracted. rewrite length_map.
    apply filter_enumerate_length.
  - intros n c Hn Hrej. split.
    + intros p Hp Hidx. apply extracted_In in Hp.
      destruct Hp as (n' & c' & Hn' & Hacc & ->). simpl in Hidx.
      assert (n' = n) by lia. subst n'.
      rewrite Hn in Hn'. inversion Hn'. subst c'. exact (Hrej Hacc).
    + apply not_true_is_false. intros H. apply acceptedb_spec in H.
      exact (Hrej H).
  - rewrite <- Hdata. exact Htable.
  - exact Hproc.
  - exact Hdrawn.
Qed.

(** The numbers of the records are strictly increasing in list order and
    each is the place (counted from 1) of an accepted contour in the list
    of contours; when the first contour fails the check and the second
    passes it, the first record has number 2. *)
Lemma goto_page2_indices
    (s : session) (mask : gimage) (img : cimage) :
  binary_image s = Some mask ->
  target_original s = Some img ->
  exists s',
    goto_page2 s = Done s' []
    /\ StronglySorted Z.lt (List.map index (particle_data s'))
    /\ (forall p,
          In p (particle_data s') ->
          1 <= index p <= Z.of_nat (List.length (findContours mask))
          /\ exists c,
               nth_error (findContours mask) (Z.to_nat (index p - 1)) = Some c
               /\ accepted c /\ p = particle_of (index p) c)
    /\ (forall c1 c2 rest,
          findContours mask = c1 :: c2 :: rest ->
          ~ accepted c1 ->
          accepted c2 ->
          exists ps,
            particle_data s' = particle_of 2 c2 :: ps
            /\ index (particle_of 2 c2) = 2).
Proof.
  intros Hm Hi.
  destruct (goto_page2_done s mask img Hm Hi)
    as (s' & cv & Hrun & Hdata & _).
  exists s'. split; [exact Hrun|]. rewrite Hdata.
  split; [|split].
  - rewrite extracted_indices. apply enumerate_sorted.
  - intros p Hp. apply extracted_In in Hp.
    destruct Hp as (n & c & Hn & Hacc & ->). simpl.
    assert (n < List.length (findContours mask))%nat
      by (apply nth_error_Some; congruence).
    split; [lia|]. exists c.
    replace (Z.to_nat (Z.of_nat n + 1 - 1)) with n by lia.
    repeat split; try assumption; apply Hacc.
  - intros c1 c2 rest Hcs Hrej Hacc. rewrite Hcs.
    unfold Particles.extracted. simpl.
    assert (E1 : acceptedb c1 = false).
    { apply not_true_is_false. intros H. apply acceptedb_spec in H.
      exact (Hrej H). }
    assert (E2 : acceptedb c2 = true) by (apply acceptedb_spec, Hacc).
    rewrite E1, E2. simpl. eexists. split; reflexivity.
Qed.

End Extraction.

(** ** Filtering by area ([filter_particles]) *)

Section Filtering.

Import CircularityCalculator Particles.

Variable findContours : gimage -> list contour.
Variable arcLength : contour -> Q.
Variable contourArea : contour -> Q.
Variable moments : contour -> Q * Q * Q.

Abbreviation goto_page2 :=
  (goto_page2 findContours arcLength contourArea moments).
Abbreviation filter_particles :=
  (filter_particles findContours arcLength contourArea moments).

(** A text that [float] refuses, or whose value is below zero, is
    answered by the warning and changes nothing. *)
Lemma filter_particles_rejects (s : session) (text : string) :
  py_float text = None
  \/ (exists v, py_float text = Some v /\ py_lt v py_zero = true) ->
  filter_particles s text = rejected s.
Proof.
  unfold CircularityCalculator.filter_particles, rejected.
  intros [H|(v & H & Hneg)]; rewrite H; [reflexivity|].
  rewrite Hneg. reflexivity.
Qed.

Lemma drawn_contours_redraw (cs : list contour) :
  forall cv : canvas,
    drawn_contours (fold_left (redraw_step arcLength contourArea moments) cs cv)
    = drawn_contours cv ++ cs.
Proof.
  induction cs as [|c cs IH]; intros cv; simpl.
  - symmetry. apply app_nil_r.
  - rewrite IH. unfold redraw_step.
    rewrite drawn_contours_put_label, drawn_contours_draw.
    rewrite <- app_assoc. reflexivity.
Qed.

(** A threshold that is not below zero, with a mask and an image to draw
    on: the table and [filtered_particle_data] get the records whose area
    is at least the threshold, and the outlines drawn are the contours
    whose area is at least the threshold. *)
Lemma filter_particles_done
    (s : session) (text : string) (min_area : pyfloat)
    (mask : gimage) (img : cimage) :
  py_float text = Some min_area ->
  py_lt min_area py_zero = false ->
  binary_image s = Some mask ->
  target_original s = Some img ->
  exists s' cv,
    filter_particles s text = Done s' []
    /\ table s'
       = List.filter (fun p => py_ge (PFin (area p)) min_area)
           (particle_data s)
    /\ filtered_particle_data s' = Some (table s')
    /\ particle_data s' = particle_data s
    /\ processed_image s' = Some cv
    /\ view3 s' = Some cv
    /\ drawn_contours cv
       = List.filter (fun c => py_ge (PFin (contourArea c)) min_area)
           (findContours mask).
Proof.
  intros Hf Hneg Hm Hi. unfold CircularityCalculator.filter_particles.
  rewrite Hf, Hneg, Hi, Hm.
  eexists _, _. split; [reflexivity|]. simpl.
  repeat split. rewrite drawn_contours_redraw. reflexivity.
Qed.

Lemma nonneg_not_below_zero (m : pyfloat) :
  py_ge m py_zero = true -> py_lt m py_zero = false.
Proof.
  destruct m as [q| | |]; simpl; try discriminate; try reflexivity.
  unfold py_ge, py_le, py_zero. intros H. rewrite H. reflexivity.
Qed.

Lemma round_half_even_nonneg (q : Q) :
  (0 <= q)%Q -> 0 <= round_half_even q.
Proof.
  intros H. unfold round_half_even.
  assert (0 <= Qfloor q).
  { change 0 with (Qfloor 0). apply Qfloor_resp_le, H. }
  destruct (q - inject_Z (Qfloor q) ?= 1 # 2)%Q;
    [destruct (Z.even (Qfloor q))|..]; lia.
Qed.

Lemma round4_nonneg (q : Q) : (0 <= q)%Q -> (0 <= round4 q)%Q.
Proof.
  intros H. unfold round4. rewrite Qred_correct.
  assert (0 <= round_half_even (q * inject_Z 10000)).
  { apply round_half_even_nonneg.
    apply Qmult_le_0_compat; [exact H|]. unfold Qle. simpl. lia. }
  unfold Qle. simpl. lia.
Qed.

(** Every value that the extraction stores has at most four decimals. *)
Lemma round4_four_decimals (q : Q) : four_decimals (round4 q).
Proof.
  exists (round_half_even (q * inject_Z 10000)).
  unfold round4. apply Qred_correct.
Qed.

Lemma extracted_area_nonneg (contours : list contour) :
  Forall (fun p => (0 <= area p)%Q)
    (extracted arcLength contourArea contours).
Proof.
  apply Forall_forall. intros p Hp.
  apply extracted_In in Hp. destruct Hp as (n & c & _ & [_ Ha] & ->).
  simpl. apply round4_nonneg, Qlt_le_weak, Ha.
Qed.

Lemma filter_all {A : Type} (f : A -> bool) (l : list A) :
  Forall (fun a => f a = true) l -> List.filter f l = l.
Proof.
  induction 1 as [|a l Ha _ IH]; simpl; [reflexivity|].
  rewrite Ha, IH. reflexivity.
Qed.

Lemma filter_none {A : Type} (f : A -> bool) (l : list A) :
  Forall (fun a => f a = false) l -> List.filter f l = [].
Proof.
  induction 1 as [|a l Ha _ IH]; simpl; [reflexivity|].
  rewrite Ha, IH. reflexivity.
Qed.

Lemma zero_threshold_keeps (m : pyfloat) (a : Q) :
  py_ge m py_zero = true -> py_le m py_zero = true -> (0 <= a)%Q ->
  py_ge (PFin a) m = true.
Proof.
  destruct m as [q| | |]; simpl; try discriminate.
  unfold py_ge, py_le, py_zero. intros _ Hq Ha.
  apply Qle_bool_iff. apply Qle_bool_iff in Hq.
  eapply Qle_trans; eassumption.
Qed.

Lemma larger_threshold_drops (m : pyfloat) (a : Q) :
  py_lt (PFin a) m = true -> py_ge (PFin a) m = false.
Proof.
  destruct m as [q| | |]; simpl; try discriminate; try reflexivity.
  unfold py_ge, py_le. apply negb_true_iff.
Qed.

Lemma py_ge_fin_compat (a b : Q) (m : pyfloat) :
  (a == b)%Q -> py_ge (PFin a) m = py_ge (PFin b) m.
Proof.
  intros H. destruct m as [q| | |]; simpl; try reflexivity.
  unfold py_ge, py_le. rewrite H. reflexivity.
Qed.

Lemma filter_map_comm {A B : Type} (g : A -> B) (f : B -> bool) (l : list A) :
  List.filter f (List.map g l)
  = List.map g (List.filter (fun a => f (g a)) l).
Proof.
  induction l as [|a l IH]; simpl; [reflexivity|].
  destruct (f (g a)); simpl; rewrite IH; reflexivity.
Qed.

Lemma enumerate_snd {A : Type} (l : list A) :
  forall start : Z, List.map snd (enumerate start l) = l.
Proof.
  induction l as [|a l IH]; intros start; simpl; [reflexivity|].
  rewrite IH. reflexivity.
Qed.

(** Where the two paths of the filter do agree: when every contour
    passes the positivity check and no area is changed by the rounding,
    the records kept are the records of the contours outlined, in the
    same order. *)
Lemma filter_paths_agree_on_accepted
    (contours : list contour) (min_area : pyfloat) :
  Forall (accepted arcLength contourArea) contours ->
  Forall (fun c => (round4 (contourArea c) == contourArea c)%Q) contours ->
  List.filter (fun p => py_ge (PFin (area p)) min_area)
    (extracted arcLength contourArea contours)
  = List.map (fun ic => particle_of arcLength contourArea (fst ic) (snd ic))
      (List.filter (fun ic => py_ge (PFin (contourArea (snd ic))) min_area)
         (enumerate 1 contours))
  /\ List.map snd
       (List.filter (fun ic => py_ge (PFin (contourArea (snd ic))) min_area)
          (enumerate 1 contours))
     = List.filter (fun c => py_ge (PFin (contourArea c)) min_area) contours.
Proof.
  intros Hacc Hround. split.
  - unfold Particles.extracted. rewrite filter_map_comm. f_equal.
    assert (Hkeep : List.filter
                      (fun ic => acceptedb arcLength contourArea (snd ic))
                      (enumerate 1 contours) = enumerate 1 contours).
    { apply filter_all. apply Forall_forall. intros [i c] Hin.
      apply enumerate_In in Hin. destruct Hin as (n & _ & Hn).
      simpl. apply acceptedb_spec.
      rewrite Forall_forall in Hacc. apply Hacc.
      eapply nth_error_In; eassumption. }
    rewrite Hkeep. apply filter_ext_in. intros [i c] Hin. simpl.
    apply py_ge_fin_compat.
    apply enumerate_In in Hin. destruct Hin as (n & _ & Hn).
    rewrite Forall_forall in Hround. apply Hround.
    eapply nth_error_In; eassumption.
  - generalize 1. induction contours as [|c cs IH]; intros k; simpl;
      [reflexivity|].
    inversion Hacc; inversion Hround; subst.
    destruct (py_ge (PFin (contourArea c)) min_area); simpl;
      rewrite IH by assumption; reflexivity.
Qed.

(** C4: for every particle list and every threshold text whose value is
    not negative, [filter_particles] keeps a record if and only if its
    area is at least the threshold (equality keeps it), in the order of
    the list.  With threshold 0 the list of records whose areas are not
    negative, as every list made by [goto_page2] is, is kept whole; with
    a threshold above every area nothing is kept. *)
Theorem filter_particles_keeps_area_at_least
    (s : session) (text : string) (min_area : pyfloat)
    (mask : gimage) (img : cimage) :
  py_float text = Some min_area ->
  py_ge min_area py_zero = true ->
  binary_image s = Some mask ->
  target_original s = Some img ->
  exists s',
    filter_particles s text = Done s' []
    /\ filtered_particle_data s' = Some (table s')
    /\ particle_data s' = particle_data s
    /\ table s'
       = List.filter (fun p => py_ge (PFin (area p)) min_area)
           (particle_data s)
    /\ (forall p,
          In p (table s')
          <-> In p (particle_data s) /\ py_ge (PFin (area p)) min_area = true)
    /\ (forall q p,
          min_area = PFin q ->
          (In p (table s') <-> In p (particle_data s) /\ (q <= area p)%Q))
    /\ (py_le min_area py_zero = true ->
        Forall (fun p => (0 <= area p)%Q) (particle_data s) ->
        table s' = particle_data s)
    /\ (py_le min_area py_zero = true ->
        forall s0, goto_page2 s0 = Done s [] -> table s' = particle_data s)
    /\ (Forall (fun p => py_lt (PFin (area p)) min_area = true)
          (particle_data s) ->
        table s' = []).
Proof.
  intros Hf Hge Hm Hi.
  destruct (filter_particles_done s text min_area mask img Hf
              (nonneg_not_below_zero _ Hge) Hm Hi)
    as (s' & cv & Hrun & Htable & Hfd & Hpd & _).
  assert (Hzero : py_le min_area py_zero = true ->
                  Forall (fun p => (0 <= area p)%Q) (particle_data s) ->
                  table s' = particle_data s).
  { intros Hle Hall. rewrite Htable. apply filter_all.
    eapply Forall_impl; [|exact Hall]. simpl. intros p Hp.
    apply zero_threshold_keeps; assumption. }
  exists s'. split; [exact Hrun|]. split; [exact Hfd|].
  split; [exact Hpd|]. split; [exact Htable|].
  split; [|split; [|split; [|split]]].
  - intros p. rewrite Htable. apply filter_In.
  - intros q p ->. rewrite Htable, filter_In.
    unfold py_ge, py_le. rewrite Qle_bool_iff. tauto.
  - exact Hzero.
  - intros Hle s0 Hs0. apply Hzero; [exact Hle|].
    unfold CircularityCalculator.goto_page2 in Hs0.
    destruct (binary_image s0) as [mask0|]; [|discriminate].
    destruct (target_original s0) as [img0|]; [|discriminate].
    pose proof (extract_loop_spec arcLength contourArea moments
                  (findContours mask0) 1 ([], copy img0)) as [E _].
    destruct (extract_loop arcLength contourArea moments 1
                (findContours mask0) ([], copy img0)) as [data cv0].
    inversion Hs0. simpl in *. subst data.
    apply extracted_area_nonneg.
  - intros Hall. rewrite Htable. apply filter_none.
    eapply Forall_impl; [|exact Hall]. simpl. intros p Hp.
    apply larger_threshold_drops, Hp.
Qed.

End Filtering.

(** ** CSV export ([save_processed_csv]) *)

Section CsvExport.

Import CircularityCalculator Particles.

Variable findContours : gimage -> list contour.
Variable arcLength : contour -> Q.
Variable contourArea : contour -> Q.
Variable moments : contour -> Q * Q * Q.
Variable str_float : Q -> string.

Abbreviation goto_page2 :=
  (goto_page2 findContours arcLength contourArea moments).
Abbreviation filter_particles :=
  (filter_particles findContours arcLength contourArea moments).

(** The header line as it stands in the file. *)
Lemma writerow_csv_header :
  writerow csv_header = ("序号,周长,面积,圆形度" ++ crlf)%string.
Proof. reflexivity. Qed.

(** The records in the table after extraction and filtering hold values
    with at most four decimals. *)
Lemma pipeline_four_decimals (s0 s1 s : session) (text : string) :
  goto_page2 s0 = Done s1 [] ->
  filter_particles s1 text = Done s [] ->
  exists data,
    filtered_particle_data s = Some data
    /\ Forall (fun p => four_decimals (perimeter p)
                        /\ four_decimals (area p)
                        /\ four_decimals (circularity p)) data.
Proof.
  intros H0 H1.
  assert (Hall : Forall (fun p => four_decimals (perimeter p)
                                  /\ four_decimals (area p)
                                  /\ four_decimals (circularity p))
                   (particle_data s1)).
  { unfold CircularityCalculator.goto_page2 in H0.
    destruct (binary_image s0) as [mask0|]; [|discriminate].
    destruct (target_original s0) as [img0|]; [|discriminate].
    pose proof (extract_loop_spec arcLength contourArea moments
                  (findContours mask0) 1 ([], copy img0)) as [E _].
    destruct (extract_loop arcLength contourArea moments 1
                (findContours mask0) ([], copy img0)) as [data cv0].
    inversion H0. simpl in *. subst data.
    apply Forall_forall. intros p Hp. apply in_map_iff in Hp.
    destruct Hp as (ic & <- & _). simpl.
    repeat split; apply round4_four_decimals. }
  unfold CircularityCalculator.filter_particles in H1.
  destruct (py_float text) as [m|]; [|discriminate].
  destruct (py_lt m py_zero); [discriminate|].
  destruct (target_original s1) as [img|]; [|discriminate].
  destruct (binary_image s1) as [mask|]; [|discriminate].
  inversion H1. simpl. eexists. split; [reflexivity|].
  apply Forall_forall. intros p Hp. apply filter_In in Hp.
  rewrite Forall_forall in Hall. apply Hall, Hp.
Qed.

(** C2, as the code has it: with an image path, filtered records (none
    or more) and a path chosen, [save_processed_csv] writes one file and
    leaves the window as it is.  The file starts with the UTF-8
    byte-order marker; its first line is the header 序号,周长,面积,圆形度
    (number, perimeter, area, circularity); then comes one line per
    record with the index, the perimeter, the area and the circularity of
    the record in this order, as they are stored.  The stored values of
    records that come from extraction and filtering have at most four
    decimals. *)
Theorem save_processed_csv_writes_rows
    (s : session) (save_path : string) (data : list particle) :
  filtered_particle_data s = Some data ->
  original_image_path s <> EmptyString ->
  save_path <> EmptyString ->
  save_processed_csv str_float s save_path
  = Done s
      [WriteFile save_path
         (utf8_bom ++ ("序号,周长,面积,圆形度" ++ crlf)
          ++ String.concat EmptyString
               (List.map
                  (fun p =>
                     (join_fields [str_int (index p); str_float (perimeter p);
                                   str_float (area p);
                                   str_float (circularity p)] ++ crlf)%string)
                  data));
       Information "成功" ("CSV数据已保存至：" ++ String LF save_path)]
  /\ (forall s0 s1 text,
        goto_page2 s0 = Done s1 [] ->
        filter_particles s1 text = Done s [] ->
        Forall (fun p => four_decimals (perimeter p)
                         /\ four_decimals (area p)
                         /\ four_decimals (circularity p)) data).
Proof.
  intros Hd Hp Hs. split.
  - unfold save_processed_csv. rewrite Hd.
    apply String.eqb_neq in Hp. apply String.eqb_neq in Hs.
    rewrite Hp, Hs. reflexivity.
  - intros s0 s1 text H0 H1.
    destruct (pipeline_four_decimals s0 s1 s text H0 H1) as (d & Hd' & Hall).
    rewrite Hd in Hd'. inversion Hd'. subst d. exact Hall.
Qed.

End CsvExport.

(** ** The main window on the sample photograph *)

Section WindowOnSamples.

Import CircularityCalculator Particles Samples.

Abbreviation sample_accepted := (accepted polyline_length polygon_area).
Abbreviation sample_acceptedb := (acceptedb polyline_length polygon_area).
Abbreviation sample_particle_of := (particle_of polyline_length polygon_area).

Lemma goto_page2_only_positive_contours_witness :
  exists s' cv,
    sample_goto_page2 [dot; square] uploaded = Done s' []
    /\ (forall p,
          In p (particle_data s')
          <-> exists n c,
                nth_error
                  (traced [dot; square] (threshold_binary_inv sand_gray 160 255))
                  n = Some c
                /\ (0 < polyline_length c)%Q /\ (0 < polygon_area c)%Q
                /\ p = sample_particle_of (Z.of_nat n + 1) c)
    /\ List.length (particle_data s')
       = List.length
           (List.filter sample_acceptedb
              (traced [dot; square] (threshold_binary_inv sand_gray 160 255)))
    /\ (forall n c,
          nth_error
            (traced [dot; square] (threshold_binary_inv sand_gray 160 255))
            n = Some c ->
          ~ ((0 < polyline_length c)%Q /\ (0 < polygon_area c)%Q) ->
          (forall p, In p (particle_data s') -> index p <> Z.of_nat n + 1)
          /\ sample_acceptedb c = false)
    /\ table s' = particle_data s'
    /\ processed_image s' = Some cv
    /\ drawn_contours cv
       = List.filter sample_acceptedb
           (traced [dot; square] (threshold_binary_inv sand_gray 160 255)).
Proof.
  apply (goto_page2_only_positive_contours (traced [dot; square])
           polyline_length polygon_area polygon_moments uploaded
           (threshold_binary_inv sand_gray 160 255) sand).
  - reflexivity.
  - reflexivity.
Defined.

(** On the sample the first contour is the pixel, which fails the check:
    the only record is that of the square and carries the number 2. *)
Lemma analysed_first_index_is_2 :
  List.map index (particle_data analysed) = [2]
  /\ ~ sample_accepted dot
  /\ sample_accepted square.
Proof.
  split; [vm_compute; reflexivity|].
  split.
  - intros [H _]. vm_compute in H. discriminate.
  - split; vm_compute; reflexivity.
Qed.

(** C10: for every mask, the numbers of the records that [goto_page2]
    makes are strictly increasing in list order, and each is the place
    (counted from 1) of an accepted contour in the list of contours, so a
    contour that fails the check uses up its number: when the first
    contour fails the check and the second passes it, the first record
    has number 2.  Such a list of contours exists: for the pixel and the
    square of the sample the first record has a number greater than 1. *)
Theorem goto_page2_indices_increasing_with_gaps :
  (forall findContours arcLength contourArea moments
          (s : session) (mask : gimage) (img : cimage),
      binary_image s = Some mask ->
      target_original s = Some img ->
      exists s',
        goto_page2 findContours arcLength contourArea moments s = Done s' []
        /\ StronglySorted Z.lt (List.map index (particle_data s'))
        /\ (forall p,
              In p (particle_data s') ->
              1 <= index p <= Z.of_nat (List.length (findContours mask))
              /\ exists c,
                   nth_error (findContours mask) (Z.to_nat (index p - 1))
                   = Some c
                   /\ accepted arcLength contourArea c
                   /\ p = particle_of arcLength contourArea (index p) c)
        /\ (forall c1 c2 rest,
              findContours mask = c1 :: c2 :: rest ->
              ~ accepted arcLength contourArea c1 ->
              accepted arcLength contourArea c2 ->
              exists ps,
                particle_data s'
                = particle_of arcLength contourArea 2 c2 :: ps
                /\ index (particle_of arcLength contourArea 2 c2) = 2))
  /\ (exists s' p ps,
        sample_goto_page2 [dot; square] uploaded = Done s' []
        /\ particle_data s' = p :: ps
        /\ 1 < index p).
Proof.
  split.
  - intros. eapply goto_page2_indices; eassumption.
  - eexists _, _, _. split; [vm_compute; reflexivity|].
    split; [vm_compute; reflexivity|]. vm_compute. reflexivity.
Qed.

Lemma goto_page2_indices_increasing_with_gaps_witness :
  exists s',
    sample_goto_page2 [dot; square] uploaded = Done s' []
    /\ StronglySorted Z.lt (List.map index (particle_data s'))
    /\ (forall p,
          In p (particle_data s') ->
          1 <= index p
            <= Z.of_nat
                 (List.length
                    (traced [dot; square]
                       (threshold_binary_inv sand_gray 160 255)))
          /\ exists c,
               nth_error
                 (traced [dot; square] (threshold_binary_inv sand_gray 160 255))
                 (Z.to_nat (index p - 1)) = Some c
               /\ sample_accepted c /\ p = sample_particle_of (index p) c)
    /\ (forall c1 c2 rest,
          traced [dot; square] (threshold_binary_inv sand_gray 160 255)
          = c1 :: c2 :: rest ->
          ~ sample_accepted c1 ->
          sample_accepted c2 ->
          exists ps,
            particle_data s' = sample_particle_of 2 c2 :: ps
            /\ index (sample_particle_of 2 c2) = 2).
Proof.
  apply (proj1 goto_page2_indices_increasing_with_gaps (traced [dot; square])
           polyline_length polygon_area polygon_moments uploaded
           (threshold_binary_inv sand_gray 160 255) sand).
  - reflexivity.
  - reflexivity.
Defined.

Lemma filter_particles_keeps_area_at_least_witness :
  exists s',
    sample_filter_particles [dot; square] analysed "4" = Done s' []
    /\ filtered_particle_data s' = Some (table s')
    /\ particle_data s' = particle_data analysed
    /\ table s'
       = List.filter (fun p => py_ge (PFin (area p)) (PFin (inject_Z 4)))
           (particle_data analysed)
    /\ (forall p,
          In p (table s')
          <-> In p (particle_data analysed)
              /\ py_ge (PFin (area p)) (PFin (inject_Z 4)) = true)
    /\ (forall q p,
          PFin (inject_Z 4) = PFin q ->
          (In p (table s')
           <-> In p (particle_data analysed) /\ (q <= area p)%Q))
    /\ (py_le (PFin (inject_Z 4)) py_zero = true ->
        Forall (fun p => (0 <= area p)%Q) (particle_data analysed) ->
        table s' = particle_data analysed)
    /\ (py_le (PFin (inject_Z 4)) py_zero = true ->
        forall s0,
          sample_goto_page2 [dot; square] s0 = Done analysed [] ->
          table s' = particle_data analysed)
    /\ (Forall (fun p => py_lt (PFin (area p)) (PFin (inject_Z 4)) = true)
          (particle_data analysed) ->
        table s' = []).
Proof.
  apply (filter_particles_keeps_area_at_least (traced [dot; square])
           polyline_length polygon_area polygon_moments analysed "4"
           (PFin (inject_Z 4)) (threshold_binary_inv sand_gray 160 255) sand).
  - vm_compute. reflexivity.
  - vm_compute. reflexivity.
  - vm_compute. reflexivity.
  - vm_compute. reflexivity.
Defined.

(** The record of the square has area 4: threshold 4 keeps it (the
    boundary is inclusive), threshold 0 keeps the whole list, threshold
    4.0001 keeps nothing. *)
Lemma sample_filter_boundaries :
  table (after (sample_filter_particles [dot; square] analysed "4"))
  = particle_data analysed
  /\ table (after (sample_filter_particles [dot; square] analysed "0"))
     = particle_data analysed
  /\ table (after (sample_filter_particles [dot; square] analysed "4.0001"))
     = [].
Proof. repeat split; vm_compute; reflexivity. Qed.

(** C5 at the text "nan".  [float] accepts it, its value is not below
    zero, so no warning is shown and the filter runs: every comparison
    with NaN is false, the table and [filtered_particle_data] are emptied,
    the processed image is replaced by a copy without any outline and the
    window moves to the third page. *)
Theorem filter_particles_accepts_nan :
  py_float "nan" = Some PNaN
  /\ py_lt PNaN py_zero = false
  /\ table analysed = [mkParticle 2 8 4 (3927 # 5000)]
  /\ option_map drawn_contours (processed_image analysed) = Some [square]
  /\ exists s',
      sample_filter_particles [dot; square] analysed "nan" = Done s' []
      /\ table s' = []
      /\ filtered_particle_data s' = Some []
      /\ option_map strokes (processed_image s') = Some []
      /\ current_index s' = 2
      /\ sample_filter_particles [dot; square] analysed "nan"
         <> rejected analysed.
Proof.
  repeat (split; [vm_compute; reflexivity|]).
  eexists. split; [vm_compute; reflexivity|].
  repeat (split; [vm_compute; reflexivity|]).
  vm_compute. discriminate.
Qed.

(** The texts that are not numbers in the ordinary sense and are refused,
    and a negative number. *)
Lemma sample_filter_rejections :
  sample_filter_particles [dot; square] analysed "abc" = rejected analysed
  /\ sample_filter_particles [dot; square] analysed EmptyString
     = rejected analysed
  /\ sample_filter_particles [dot; square] analysed "-1" = rejected analysed
  /\ sample_filter_particles [dot; square] analysed "-inf"
     = rejected analysed.
Proof.
  repeat split; apply filter_particles_rejects;
    (left; vm_compute; reflexivity)
    || (right; eexists; split; vm_compute; reflexivity).
Qed.

(** C9 at the sample with threshold 0.  The contour of the single pixel
    has perimeter 0 and area 0, so the extraction made no record of it;
    the filter outlines it all the same, because its area 0 is at least
    the threshold 0.  The outlines are the pixel and the square, the
    table has the record of the square only. *)
Theorem filter_particles_outlines_contour_without_record :
  polyline_length dot = 0%Q
  /\ polygon_area dot == 0
  /\ particle_data analysed = [sample_particle_of 2 square]
  /\ option_map drawn_contours (processed_image analysed) = Some [square]
  /\ exists s' cv,
      sample_filter_particles [dot; square] analysed "0" = Done s' []
      /\ table s' = [sample_particle_of 2 square]
      /\ filtered_particle_data s' = Some [sample_particle_of 2 square]
      /\ processed_image s' = Some cv
      /\ drawn_contours cv = [dot; square]
      /\ (forall p, In p (table s') -> index p <> 1).
Proof.
  split; [reflexivity|]. split; [reflexivity|].
  repeat (split; [vm_compute; reflexivity|]).
  eexists _, _. split; [vm_compute; reflexivity|].
  repeat (split; [vm_compute; reflexivity|]).
  intros p [<-|[]]. vm_compute. discriminate.
Qed.

(** C2 as worded fails: the first line of the file written for the
    sample is the Chinese header, not index,perimeter,area,circularity. *)
Lemma save_processed_csv_header_counterexample :
  filtered_particle_data filtered = Some [mkParticle 2 8 4 (3927 # 5000)]
  /\ save_processed_csv repr4 filtered "out.csv"
     = Done filtered
         [WriteFile "out.csv"
            (utf8_bom ++ "序号,周长,面积,圆形度" ++ crlf
             ++ "2,8.0,4.0,0.7854" ++ crlf);
          Information "成功" ("CSV数据已保存至：" ++ String LF "out.csv")]
  /\ csv_header <> ["index"; "perimeter"; "area"; "circularity"]%string
  /\ writerow csv_header
     <> writerow ["index"; "perimeter"; "area"; "circularity"]%string.
Proof.
  split; [vm_compute; reflexivity|].
  split; [vm_compute; reflexivity|].
  split; vm_compute; discriminate.
Qed.

Lemma save_processed_csv_writes_rows_witness :
  save_processed_csv repr4 filtered "out.csv"
  = Done filtered
      [WriteFile "out.csv"
         (utf8_bom ++ ("序号,周长,面积,圆形度" ++ crlf)
          ++ String.concat EmptyString
               (List.map
                  (fun p =>
                     (join_fields [str_int (index p); repr4 (perimeter p);
                                   repr4 (area p);
                                   repr4 (circularity p)] ++ crlf)%string)
                  [mkParticle 2 8 4 (3927 # 5000)]));
       Information "成功" ("CSV数据已保存至：" ++ String LF "out.csv")]
  /\ (forall s0 s1 text,
        sample_goto_page2 [dot; square] s0 = Done s1 [] ->
        sample_filter_particles [dot; square] s1 text = Done filtered [] ->
        Forall (fun p => four_decimals (perimeter p)
                         /\ four_decimals (area p)
                         /\ four_decimals (circularity p))
          [mkParticle 2 8 4 (3927 # 5000)]).
Proof.
  apply (save_processed_csv_writes_rows (traced [dot; square])
           polyline_length polygon_area polygon_moments repr4
           filtered "out.csv" [mkParticle 2 8 4 (3927 # 5000)]).
  - vm_compute. reflexivity.
  - vm_compute. discriminate.
  - discriminate.
Defined.

End WindowOnSamples.

(** * Further properties of the code *)

(** ** The zoomable view *)

Section Zoom.

Import ZoomableGraphicsView.





(** At the upper limit a notch up changes nothing, and at the lower limit
    a notch down changes nothing. *)
Lemma wheelEvent_at_limits (v : view) :
  ((zoom_factor v == max_zoom)%Q -> wheelEvent v 120 = Some v)
  /\ ((zoom_factor v == min_zoom)%Q -> wheelEvent v (-120) = Some v).
Proof.
  split; intros H; unfold wheelEvent; simpl.
  - assert (E1 : Qle_bool max_zoom (zoom_factor v + zoom_step) = true).
    { apply Qle_bool_iff. rewrite H. unfold Qle. simpl. lia. }
    unfold py_min. rewrite E1.
    change (py_max min_zoom max_zoom) with max_zoom.
    assert (E2 : Qeq_bool max_zoom (zoom_factor v) = true)
      by (apply Qeq_bool_iff; symmetry; exact H).
    rewrite E2. reflexivity.
  - assert (E1 : Qle_bool max_zoom (zoom_factor v - zoom_step) = false).
    { apply not_true_is_false. intros E. apply Qle_bool_iff in E.
      rewrite H in E. unfold Qle in E. simpl in E. lia. }
    unfold py_min. rewrite E1.
    assert (E2 : Qle_bool min_zoom (zoom_factor v - zoom_step) = false).
    { apply not_true_is_false. intros E. apply Qle_bool_iff in E.
      rewrite H in E. unfold Qle in E. simpl in E. lia. }
    unfold py_max. rewrite E2.
    assert (E3 : Qeq_bool min_zoom (zoom_factor v) = true)
      by (apply Qeq_bool_iff; symmetry; exact H).
    rewrite E3. reflexivity.
Qed.


End Zoom.

(** ** The crop dialog: drawing, idle moves, release, reset, commit *)

Section CropMore.

Import ImageCropDialog CropRegion CropDrawing.

Ltac split_cmp :=
  repeat match goal with
         | |- context [?a <=? ?b] =>
             destruct (Z.leb_spec a b); try (exfalso; lia)
         | |- context [?a <? ?b] =>
             destruct (Z.ltb_spec a b); try (exfalso; lia)
         end.

(** The translucent overlay darkens the outside of the rectangle once
    and the inside not at all: for a rectangle that satisfies the
    invariant, every pixel of the preview inside the crop rectangle is
    covered by none of the four filled rectangles and every other pixel
    of the preview by exactly one; the red outline is the crop
    rectangle. *)
Theorem draw_crop_rect_shades_outside_once (d : dialog) :
  crop_inv d ->
  exists shaded border width height,
    scaled_qt_img d = Some (width, height)
    /\ _draw_crop_rect d = Some (shaded, border)
    /\ border = mkRect (crop_left d) (crop_top d)
                  (crop_right d - crop_left d) (crop_bottom d - crop_top d)
    /\ forall px py,
        0 <= px < width -> 0 <= py < height ->
        shade_count shaded px py
        = if fills border px py then 0%nat else 1%nat.
Proof.
  intros (w & h & Hs & Hl & Hlr & Hr & Ht & Htb & Hb).
  unfold min_crop_size in *.
  unfold _draw_crop_rect. rewrite Hs.
  eexists _, _, w, h. split; [reflexivity|]. split; [reflexivity|].
  split; [reflexivity|].
  intros px py Hx Hy. unfold shade_count, fills. simpl.
  destruct (Z.lt_ge_cases py (crop_top d));
    [|destruct (Z.lt_ge_cases py (crop_bottom d))];
    (destruct (Z.lt_ge_cases px (crop_left d));
     [|destruct (Z.lt_ge_cases px (crop_right d))]);
    split_cmp; reflexivity.
Qed.

(** What a pointer move outside a drag leaves alone and what it sets. *)
Lemma idle_move_fields
    (d d' : dialog) (mouse_x mouse_y x y : Z) :
  is_dragging d = false ->
  _get_valid_image_coords d mouse_x mouse_y = Some (x, y) ->
  on_mouse_move d mouse_x mouse_y = Some d' ->
  (forall e, edge_coord d' e = edge_coord d e)
  /\ is_dragging d' = false
  /\ drag_type d' = drag_type d
  /\ scaled_qt_img d' = scaled_qt_img d
  /\ original_image d' = original_image d
  /\ (cursor d' = ArrowCursor <-> forall e, ~ near_edge d e x y)
  /\ (cursor d' = SizeHorCursor <->
      _judge_drag_type d x y = Some DragLeft
      \/ _judge_drag_type d x y = Some DragRight).
Proof.
  intros Hidle Hc Hm. unfold on_mouse_move in Hm.
  rewrite Hc, Hidle in Hm. inversion Hm. subst d'. clear Hm.
  destruct (update_mouse_cursor_fields (_judge_drag_type d x y) d)
    as (Ho & _ & Hd & Ht & Hl & Htop & Hr & Hb & Hs & _).
  pose proof (judge_drag_type_first d x y) as HJ.
  split; [intros []; simpl; assumption|].
  split; [congruence|]. split; [assumption|]. split; [assumption|].
  split; [assumption|].
  destruct (_judge_drag_type d x y) as [[]|]; simpl;
    (split; [split|split]);
    try (intros H0; discriminate H0);
    try (intros _; reflexivity);
    try (intros [H0|H0]; discriminate H0);
    try (intros H0; exfalso; destruct HJ as [Hn _]; exact (H0 _ Hn));
    try (intros _; left; reflexivity);
    try (intros _; right; reflexivity);
    try (intros _; exact HJ).
Qed.

Lemma idle_moves_keep_rectangle (es : list event) :
  forall d d',
    is_dragging d = false ->
    forallb is_move es = true ->
    run d es = Some d' ->
    (forall e, edge_coord d' e = edge_coord d e)
    /\ is_dragging d' = false
    /\ drag_type d' = drag_type d.
Proof.
  induction es as [|e es IH]; intros d d' Hidle Hall Hrun; simpl in *.
  - inversion Hrun. subst. repeat split; assumption.
  - apply andb_true_iff in Hall. destruct Hall as [He Hall].
    destruct e as [b x y|x y|b]; try discriminate. simpl in Hrun.
    destruct (on_mouse_move d x y) as [d1|] eqn:Hm; [|discriminate].
    assert (Hc : exists ix iy,
               _get_valid_image_coords d x y = Some (ix, iy)).
    { unfold on_mouse_move in Hm.
      destruct (_get_valid_image_coords d x y) as [[ix iy]|];
        [eexists _, _; reflexivity | discriminate]. }
    destruct Hc as (ix & iy & Hc).
    destruct (idle_move_fields d d1 x y ix iy Hidle Hc Hm)
      as (Hr1 & Hi1 & Ht1 & _).
    destruct (IH d1 d' Hi1 Hall Hrun) as (Hr2 & Hi2 & Ht2).
    split; [intros e; rewrite Hr2; apply Hr1|].
    split; [assumption | congruence].
Qed.

(** A pointer move while no drag is in progress never changes the
    rectangle or the drag state; it only sets the cursor, which is the
    arrow exactly when the position is near no edge. *)
Theorem idle_move_keeps_rectangle
    (d d' : dialog) (mouse_x mouse_y x y : Z) :
  is_dragging d = false ->
  _get_valid_image_coords d mouse_x mouse_y = Some (x, y) ->
  on_mouse_move d mouse_x mouse_y = Some d' ->
  (forall e, edge_coord d' e = edge_coord d e)
  /\ is_dragging d' = false
  /\ drag_type d' = drag_type d
  /\ scaled_qt_img d' = scaled_qt_img d
  /\ original_image d' = original_image d
  /\ (cursor d' = ArrowCursor <-> forall e, ~ near_edge d e x y)
  /\ (cursor d' = SizeHorCursor <->
      _judge_drag_type d x y = Some DragLeft
      \/ _judge_drag_type d x y = Some DragRight).
Proof. apply idle_move_fields. Qed.

(** Releasing the left button ends the drag whatever edge was dragged,
    without moving any edge; the pointer moves that follow, however
    many, leave the rectangle where it is. *)
Theorem release_ends_drag (d d' : dialog) (es : list event) :
  forallb is_move es = true ->
  run (on_mouse_release d LeftButton) es = Some d' ->
  is_dragging (on_mouse_release d LeftButton) = false
  /\ drag_type (on_mouse_release d LeftButton) = None
  /\ cursor (on_mouse_release d LeftButton) = ArrowCursor
  /\ (forall e, edge_coord (on_mouse_release d LeftButton) e = edge_coord d e)
  /\ (forall e, edge_coord d' e = edge_coord d e)
  /\ is_dragging d' = false.
Proof.
  intros Hall Hrun.
  assert (H0 : is_dragging (on_mouse_release d LeftButton) = false)
    by reflexivity.
  destruct (idle_moves_keep_rectangle es _ d' H0 Hall Hrun)
    as (Hr & Hi & _).
  split; [reflexivity|]. split; [reflexivity|]. split; [reflexivity|].
  split; [intros []; reflexivity|].
  split; [|exact Hi].
  intros e. rewrite Hr. destruct e; reflexivity.
Qed.

Lemma idle_cursor_idempotent (d : dialog) (mouse_x mouse_y w h : Z) :
  let t :=
    _judge_drag_type d (Z.max 0 (Z.min (mouse_x - img_offset_x d) w))
      (Z.max 0 (Z.min (mouse_y - img_offset_y d) h)) in
  Some
    (_update_mouse_cursor
       (_judge_drag_type (_update_mouse_cursor t d)
          (Z.max 0
             (Z.min (mouse_x - img_offset_x (_update_mouse_cursor t d)) w))
          (Z.max 0
             (Z.min (mouse_y - img_offset_y (_update_mouse_cursor t d)) h)))
       (_update_mouse_cursor t d))
  = Some (_update_mouse_cursor t d).
Proof.
  intros t.
  assert (E : forall t0 x y,
             _judge_drag_type (_update_mouse_cursor t0 d) x y
             = _judge_drag_type d x y)
    by (intros [[]|] x y; reflexivity).
  assert (Ex : img_offset_x (_update_mouse_cursor t d) = img_offset_x d)
    by (destruct t as [[]|]; reflexivity).
  assert (Ey : img_offset_y (_update_mouse_cursor t d) = img_offset_y d)
    by (destruct t as [[]|]; reflexivity).
  rewrite E, Ex, Ey. fold t.
  destruct t as [[]|]; reflexivity.
Qed.

(** Moving the pointer again to the place where it already is changes
    nothing: a pointer move is idempotent, in a drag and outside one. *)
Theorem on_mouse_move_idempotent (d d' : dialog) (mouse_x mouse_y : Z) :
  on_mouse_move d mouse_x mouse_y = Some d' ->
  on_mouse_move d' mouse_x mouse_y = Some d'.
Proof.
  unfold on_mouse_move, _get_valid_image_coords.
  destruct (scaled_qt_img d) as [[w h]|] eqn:Hs; [|discriminate].
  destruct (is_dragging d) eqn:Hd; [destruct (drag_type d) as [t|] eqn:Ht|].
  - unfold _update_crop_coords. rewrite Hs, Ht.
    intros H. inversion H. subst d'. clear H.
    destruct t; cbn -[Z.max Z.min Z.sub Z.add]; rewrite Hs, Hd, Ht;
      apply f_equal; unfold set_crop; cbn -[Z.max Z.min Z.sub Z.add];
      unfold min_crop_size; f_equal; lia.
  - intros H. inversion H. subst d'. clear H.
    destruct (update_mouse_cursor_fields
                (_judge_drag_type d
                   (Z.max 0 (Z.min (mouse_x - img_offset_x d) w))
                   (Z.max 0 (Z.min (mouse_y - img_offset_y d) h))) d)
      as (_ & _ & Hd' & Ht' & Hl & Htop & Hr & Hb & Hs' & _).
    rewrite Hs', Hs, Hd', Hd, Ht', Ht.
    apply idle_cursor_idempotent.
  - intros H. inversion H. subst d'. clear H.
    destruct (update_mouse_cursor_fields
                (_judge_drag_type d
                   (Z.max 0 (Z.min (mouse_x - img_offset_x d) w))
                   (Z.max 0 (Z.min (mouse_y - img_offset_y d) h))) d)
      as (_ & _ & Hd' & Ht' & Hl & Htop & Hr & Hb & Hs' & _).
    rewrite Hs', Hs, Hd', Hd.
    apply idle_cursor_idempotent.
Qed.

(** No pointer event touches the image, the preview size, the scale
    factors or the offsets. *)
Lemma step_static (d d' : dialog) (e : event) :
  step d e = Some d' ->
  original_image d' = original_image d
  /\ scaled_qt_img d' = scaled_qt_img d
  /\ scale_w d' = scale_w d
  /\ scale_h d' = scale_h d
  /\ img_offset_x d' = img_offset_x d
  /\ img_offset_y d' = img_offset_y d.
Proof.
  assert (Hcur : forall t d0,
             original_image (_update_mouse_cursor t d0) = original_image d0
             /\ scaled_qt_img (_update_mouse_cursor t d0) = scaled_qt_img d0
             /\ scale_w (_update_mouse_cursor t d0) = scale_w d0
             /\ scale_h (_update_mouse_cursor t d0) = scale_h d0
             /\ img_offset_x (_update_mouse_cursor t d0) = img_offset_x d0
             /\ img_offset_y (_update_mouse_cursor t d0) = img_offset_y d0)
    by (intros [[]|] d0; repeat split).
  destruct e as [b x y|x y|b]; simpl.
  - unfold on_mouse_press. destruct b.
    + destruct (_get_valid_image_coords d x y) as [[ix iy]|]; [|discriminate].
      intros H. inversion H.
      exact (Hcur (_judge_drag_type d ix iy)
               (set_drag match _judge_drag_type d ix iy with
                         | Some _ => true
                         | None => false
                         end (_judge_drag_type d ix iy) d)).
    + intros H. inversion H. repeat split.
  - unfold on_mouse_move.
    destruct (_get_valid_image_coords d x y) as [[ix iy]|]; [|discriminate].
    destruct (is_dragging d); [destruct (drag_type d) as [t|] eqn:Ht|].
    + unfold _update_crop_coords. rewrite Ht.
      destruct (scaled_qt_img d) as [[w h]|] eqn:Hs; [|discriminate].
      intros H. inversion H. destruct t; repeat split; exact Hs.
    + intros H. inversion H. apply Hcur.
    + intros H. inversion H. apply Hcur.
  - intros H. inversion H. unfold on_mouse_release.
    destruct b; [exact (Hcur None (set_drag false None d)) | repeat split].
Qed.

Lemma run_static (es : list event) :
  forall d d',
    run d es = Some d' ->
    original_image d' = original_image d
    /\ scaled_qt_img d' = scaled_qt_img d
    /\ scale_w d' = scale_w d
    /\ scale_h d' = scale_h d
    /\ img_offset_x d' = img_offset_x d
    /\ img_offset_y d' = img_offset_y d.
Proof.
  induction es as [|e es IH]; intros d d' Hrun; simpl in Hrun.
  - inversion Hrun. repeat split.
  - destruct (step d e) as [d1|] eqn:Hstep; [|discriminate].
    destruct (step_static d d1 e Hstep) as (A1 & A2 & A3 & A4 & A5 & A6).
    destruct (IH d1 d' Hrun) as (B1 & B2 & B3 & B4 & B5 & B6).
    repeat split; congruence.
Qed.

(** Reset undoes every edit: whatever pointer events the dialog has seen
    since it showed the image, [on_reset] puts back the rectangle, the
    preview size, the scale factors and the offsets of the first
    display, with the arrow cursor. *)
Theorem on_reset_restores_first_display
    (label : Z * Z) (scaled : Z -> Z -> Z * Z)
    (d0 d1 d2 : dialog) (img : cimage) (es : list event) :
  original_image d0 = Some img ->
  _init_image_display label scaled d0 = Done d1 [] ->
  run d1 es = Some d2 ->
  exists d3,
    on_reset label scaled d2 = Done d3 []
    /\ (forall e, edge_coord d3 e = edge_coord d1 e)
    /\ scaled_qt_img d3 = scaled_qt_img d1
    /\ scale_w d3 = scale_w d1
    /\ scale_h d3 = scale_h d1
    /\ img_offset_x d3 = img_offset_x d1
    /\ img_offset_y d3 = img_offset_y d1
    /\ cursor d3 = ArrowCursor
    /\ is_dragging d3 = is_dragging d2
    /\ drag_type d3 = drag_type d2.
Proof.
  intros Ho Hinit Hrun.
  assert (Ho1 : original_image d1 = Some img).
  { unfold _init_image_display in Hinit. rewrite Ho in Hinit.
    destruct (scaled (shape_w img) (shape_h img)) as [w h].
    destruct (w =? 0); [discriminate|]. destruct (h =? 0); [discriminate|].
    inversion Hinit. reflexivity. }
  destruct (run_static es d1 d2 Hrun) as (Ho2 & _).
  rewrite Ho1 in Ho2.
  unfold on_reset, _init_image_display in *. rewrite Ho2. rewrite Ho in Hinit.
  destruct (scaled (shape_w img) (shape_h img)) as [w h].
  destruct (w =? 0); [discriminate|]. destruct (h =? 0); [discriminate|].
  inversion Hinit. subst d1. clear Hinit.
  eexists. split; [reflexivity|]. simpl.
  split; [intros []; reflexivity|]. repeat split.
Qed.

(** What the first display sets. *)
Lemma init_image_display_fields
    (label : Z * Z) (scaled : Z -> Z -> Z * Z)
    (d0 d1 : dialog) (img : cimage) (w h : Z) :
  original_image d0 = Some img ->
  scaled (shape_w img) (shape_h img) = (w, h) ->
  _init_image_display label scaled d0 = Done d1 [] ->
  original_image d1 = Some img
  /\ scaled_qt_img d1 = Some (w, h)
  /\ (scale_w d1 == inject_Z (shape_w img) / inject_Z w)%Q
  /\ (scale_h d1 == inject_Z (shape_h img) / inject_Z h)%Q
  /\ w <> 0 /\ h <> 0.
Proof.
  intros Ho Hs. unfold _init_image_display. rewrite Ho, Hs.
  destruct (w =? 0) eqn:Ew; [discriminate|].
  destruct (h =? 0) eqn:Eh; [discriminate|].
  remember (Qred (inject_Z (shape_w img) / inject_Z w)) as sw eqn:Esw.
  remember (Qred (inject_Z (shape_h img) / inject_Z h)) as sh eqn:Esh.
  intros H. injection H as <-.
  apply Z.eqb_neq in Ew. apply Z.eqb_neq in Eh.
  cbn [original_image scaled_qt_img scale_w scale_h]. subst sw sh.
  repeat split; try assumption; apply Qred_correct.
Qed.

(** From the first display of a preview at least 60 wide and high, after
    any pointer events, the commit never meets its out-of-range check:
    the mapped rectangle lies in the image and [on_confirm_crop] stores
    and emits exactly its pixels, reports success and accepts. *)
Theorem confirm_after_edits_succeeds
    (label : Z * Z) (scaled : Z -> Z -> Z * Z)
    (d0 d1 d2 : dialog) (img : cimage) (w h : Z) (es : list event) :
  original_image d0 = Some img ->
  rectangular img ->
  scaled (shape_w img) (shape_h img) = (w, h) ->
  60 <= w -> 60 <= h ->
  _init_image_display label scaled d0 = Done d1 [] ->
  run d1 es = Some d2 ->
  exists x0 y0 x1 y1 c,
    mapped_rect d2 = (x0, y0, x1, y1)
    /\ 0 <= x0 <= x1 /\ x1 <= shape_w img
    /\ 0 <= y0 <= y1 /\ y1 <= shape_h img
    /\ on_confirm_crop d2
       = Done (set_cropped_image c d2)
           [Emit c; Information "提示" "剪裁成功"; Accept]
    /\ shape_h c = y1 - y0
    /\ Forall (fun row => Z.of_nat (List.length row) = x1 - x0) c
    /\ forall x y : nat,
        Z.of_nat x < x1 - x0 -> Z.of_nat y < y1 - y0 ->
        pixel c x y = pixel img (x + Z.to_nat x0) (y + Z.to_nat y0).
Proof.
  intros Ho Hrect Hs Hw Hh Hinit Hrun.
  destruct (init_image_display_crop_inv label scaled d0 img w h Ho Hs Hw Hh)
    as (d1' & Hinit' & Hinv1).
  rewrite Hinit in Hinit'. inversion Hinit'. subst d1'. clear Hinit'.
  destruct (run_crop_inv es d1 Hinv1) as (d2' & Hrun' & Hinv2).
  rewrite Hrun in Hrun'. inversion Hrun'. subst d2'. clear Hrun'.
  destruct (run_static es d1 d2 Hrun) as (Ho2 & Hs2 & Hsw2 & Hsh2 & _).
  destruct (init_image_display_fields label scaled d0 d1 img w h Ho Hs Hinit)
    as (Ho1 & Hs1 & Hsw1 & Hsh1 & _).
  rewrite Ho1 in Ho2. rewrite Hs1 in Hs2.
  destruct Hinv2 as (w' & h' & Hs' & Hl & Hlr & Hr & Ht & Htb & Hb).
  rewrite Hs2 in Hs'. inversion Hs'. subst w' h'. clear Hs'.
  unfold min_crop_size in *.
  assert (HW : 0 <= shape_w img) by (unfold shape_w; destruct img; lia).
  assert (HH : 0 <= shape_h img) by (unfold shape_h; lia).
  assert (Hsw : (scale_w d2 == inject_Z (shape_w img) / inject_Z w)%Q)
    by (rewrite Hsw2; exact Hsw1).
  assert (Hsh : (scale_h d2 == inject_Z (shape_h img) / inject_Z h)%Q)
    by (rewrite Hsh2; exact Hsh1).
  assert (Hpos : forall a b, 0 <= a -> 0 < b ->
                             (0 <= inject_Z a / inject_Z b)%Q).
  { intros a b Ha Hb'. apply Qle_shift_div_l.
    - unfold Qlt. simpl. lia.
    - rewrite Qmult_0_l. unfold Qle. simpl. lia. }
  assert (Hsw0 : (0 <= scale_w d2)%Q) by (rewrite Hsw; apply Hpos; lia).
  assert (Hsh0 : (0 <= scale_h d2)%Q) by (rewrite Hsh; apply Hpos; lia).
  assert (Hint : forall z, py_int (inject_Z z) = z).
  { intros z. unfold py_int. simpl. apply Z.quot_1_r. }
  assert (Hup : forall c a b s,
             0 <= c <= b -> 0 <= a -> 0 < b ->
             (s == inject_Z a / inject_Z b)%Q ->
             0 <= py_int (inject_Z c * s) <= a).
  { intros c a b s Hc Ha Hb' Hs0. split.
    - rewrite <- (Hint 0). apply py_int_le_mono.
      apply Qmult_le_0_compat.
      + unfold Qle. simpl. lia.
      + rewrite Hs0. apply Hpos; assumption.
    - transitivity (py_int (inject_Z a)); [|rewrite Hint; lia].
      apply py_int_le_mono.
      rewrite Hs0.
      setoid_replace (inject_Z a)
        with (inject_Z b * (inject_Z a / inject_Z b))%Q at 2.
      + apply Qmult_le_compat_r; [|apply Hpos; assumption].
        rewrite <- Zle_Qle. lia.
      + field. intros Hz. unfold Qeq in Hz. simpl in Hz. lia. }
  destruct (on_confirm_crop_well_formed d2 img (w, h))
    as (x0 & y0 & x1 & y1 & Hmap & Hx0 & Hy0 & Hx1 & Hy1 & _ & Hin);
    try assumption; try lia.
  pose proof (scaled_coord_le_mono (crop_left d2) (crop_right d2)
                (scale_w d2) ltac:(lia) Hsw0) as Hxm.
  pose proof (scaled_coord_le_mono (crop_top d2) (crop_bottom d2)
                (scale_h d2) ltac:(lia) Hsh0) as Hym.
  pose proof (Hup (crop_left d2) (shape_w img) w (scale_w d2)
                ltac:(lia) HW ltac:(lia) Hsw) as Hxl.
  pose proof (Hup (crop_right d2) (shape_w img) w (scale_w d2)
                ltac:(lia) HW ltac:(lia) Hsw) as Hxr.
  pose proof (Hup (crop_top d2) (shape_h img) h (scale_h d2)
                ltac:(lia) HH ltac:(lia) Hsh) as Hyt.
  pose proof (Hup (crop_bottom d2) (shape_h img) h (scale_h d2)
                ltac:(lia) HH ltac:(lia) Hsh) as Hyb.
  rewrite <- Hx0 in Hxm, Hxl. rewrite <- Hx1 in Hxm, Hxr.
  rewrite <- Hy0 in Hym, Hyt. rewrite <- Hy1 in Hym, Hyb.
  destruct Hin as (c & Hrun2 & Hc1 & Hc2 & Hc3); [unfold within; lia|].
  exists x0, y0, x1, y1, c.
  repeat split; try assumption; try lia.
Qed.

End CropMore.

(** ** Extraction and filtering: how the handlers compose *)

Section PipelineMore.

Import CircularityCalculator Particles.

Variable findContours : gimage -> list contour.
Variable arcLength : contour -> Q.
Variable contourArea : contour -> Q.
Variable moments : contour -> Q * Q * Q.

Abbreviation goto_page2 :=
  (goto_page2 findContours arcLength contourArea moments).
Abbreviation filter_particles :=
  (filter_particles findContours arcLength contourArea moments).

(** The extraction starts afresh each time: running [goto_page2] again on
    its own result gives that result again (records are not appended to
    those of the earlier run, outlines are not drawn over the earlier
    overlay). *)
Theorem goto_page2_again (s s1 : session) :
  goto_page2 s = Done s1 [] ->
  goto_page2 s1 = Done s1 [].
Proof.
  unfold CircularityCalculator.goto_page2.
  destruct (binary_image s) as [mask|] eqn:Hm; [|discriminate].
  destruct (target_original s) as [img|] eqn:Hi; [|discriminate].
  destruct (extract_loop arcLength contourArea moments 1 (findContours mask)
              ([], copy img)) as [data cv] eqn:He.
  intros H. injection H as <-.
  cbn [binary_image]. unfold target_original in *.
  cbn [cropped_image original_image]. rewrite Hi, He.
  reflexivity.
Qed.

(** Filtering is not cumulative: a second filter works on the records of
    the extraction, not on what the first filter kept, so after any
    accepted threshold the window is the one that the second threshold
    alone would give. *)
Theorem filter_particles_not_cumulative
    (s s1 : session) (text1 text2 : string) (min_area : pyfloat) :
  filter_particles s text1 = Done s1 [] ->
  py_float text2 = Some min_area ->
  py_lt min_area py_zero = false ->
  filter_particles s1 text2 = filter_particles s text2.
Proof.
  unfold CircularityCalculator.filter_particles.
  intros H1 H2 H3. rewrite H2, H3.
  destruct (py_float text1) as [m1|]; [|discriminate].
  destruct (py_lt m1 py_zero); [discriminate|].
  destruct (target_original s) as [img|] eqn:Hi; [|discriminate].
  destruct (binary_image s) as [mask|] eqn:Hm; [|discriminate].
  injection H1 as <-.
  unfold target_original in *.
  cbn [cropped_image original_image binary_image particle_data
       original_image_path gray_image current_threshold view2].
  rewrite Hi. reflexivity.
Qed.

Lemma sorted_indices_filter (f : particle -> bool) (l : list particle) :
  StronglySorted Z.lt (List.map index l) ->
  StronglySorted Z.lt (List.map index (List.filter f l)).
Proof.
  induction l as [|p l IH]; simpl; intros H; [constructor|].
  inversion H as [|? ? Hs Hall]. subst.
  destruct (f p); simpl; [|apply IH, Hs].
  constructor; [apply IH, Hs|].
  rewrite Forall_forall in *. intros i Hi.
  apply Hall. apply in_map_iff in Hi. destruct Hi as (q & <- & Hq).
  apply in_map. apply filter_In in Hq. apply Hq.
Qed.

(** The filtered table keeps the order of discovery: after extraction
    and filtering the indices in the table (and so in the rows of the CSV
    file) are strictly increasing, and every row of the table is a record
    of the extraction. *)
Theorem filtered_table_indices_increasing
    (s0 s1 s2 : session) (text : string) :
  goto_page2 s0 = Done s1 [] ->
  filter_particles s1 text = Done s2 [] ->
  StronglySorted Z.lt (List.map index (table s2))
  /\ filtered_particle_data s2 = Some (table s2)
  /\ (forall p, In p (table s2) -> In p (particle_data s1))
  /\ particle_data s2 = particle_data s1.
Proof.
  intros H0 H1.
  assert (Hsorted : StronglySorted Z.lt (List.map index (particle_data s1))).
  { unfold CircularityCalculator.goto_page2 in H0.
    destruct (binary_image s0) as [mask0|]; [|discriminate].
    destruct (target_original s0) as [img0|]; [|discriminate].
    pose proof (extract_loop_spec arcLength contourArea moments
                  (findContours mask0) 1 ([], copy img0)) as [E _].
    destruct (extract_loop arcLength contourArea moments 1
                (findContours mask0) ([], copy img0)) as [data cv0].
    injection H0 as <-. cbn [particle_data]. simpl in E. subst data.
    rewrite map_map. simpl. apply enumerate_sorted. }
  unfold CircularityCalculator.filter_particles in H1.
  destruct (py_float text) as [m|]; [|discriminate].
  destruct (py_lt m py_zero); [discriminate|].
  destruct (target_original s1) as [img|]; [|discriminate].
  destruct (binary_image s1) as [mask|]; [|discriminate].
  injection H1 as <-. cbn [table filtered_particle_data particle_data].
  split; [apply sorted_indices_filter, Hsorted|].
  split; [reflexivity|]. split; [|reflexivity].
  intros p Hp. apply filter_In in Hp. apply Hp.
Qed.

(** A larger threshold keeps less: of two accepted finite thresholds,
    every record and every outline kept by the larger one is kept by the
    smaller one. *)
Theorem filter_particles_monotone
    (s s1 s2 : session) (text1 text2 : string) (q1 q2 : Q) :
  py_float text1 = Some (PFin q1) ->
  py_float text2 = Some (PFin q2) ->
  (q1 <= q2)%Q ->
  filter_particles s text1 = Done s1 [] ->
  filter_particles s text2 = Done s2 [] ->
  (forall p, In p (table s2) -> In p (table s1))
  /\ exists cv1 cv2,
      processed_image s1 = Some cv1
      /\ processed_image s2 = Some cv2
      /\ forall c, In c (drawn_contours cv2) -> In c (drawn_contours cv1).
Proof.
  intros Hf1 Hf2 Hle H1 H2.
  unfold CircularityCalculator.filter_particles in H1, H2.
  rewrite Hf1 in H1. rewrite Hf2 in H2.
  destruct (py_lt (PFin q1) py_zero); [discriminate|].
  destruct (py_lt (PFin q2) py_zero); [discriminate|].
  destruct (target_original s) as [img|]; [|discriminate].
  destruct (binary_image s) as [mask|]; [|discriminate].
  injection H1 as <-. injection H2 as <-.
  cbn [table processed_image].
  assert (Hmono : forall a, py_ge (PFin a) (PFin q2) = true ->
                            py_ge (PFin a) (PFin q1) = true).
  { intros a. unfold py_ge, py_le. rewrite !Qle_bool_iff.
    intros H. eapply Qle_trans; eassumption. }
  split.
  - intros p Hp. apply filter_In in Hp. apply filter_In.
    split; [apply Hp | apply Hmono, Hp].
  - eexists _, _. split; [reflexivity|]. split; [reflexivity|].
    intros c. rewrite !drawn_contours_redraw. simpl.
    intros Hc. apply filter_In in Hc. apply filter_In.
    split; [apply Hc | apply Hmono, Hc].
Qed.


End PipelineMore.

(** ** The first page *)

Section Page1Facts.

Import CircularityCalculator Page1.

Variable imread : string -> option cimage.
Variable bgr2gray : Z * Z * Z -> Z.
Variable findContours : gimage -> list contour.
Variable arcLength : contour -> Q.
Variable contourArea : contour -> Q.
Variable moments : contour -> Q * Q * Q.

Abbreviation upload_image := (upload_image imread bgr2gray).
Abbreviation on_crop_completed := (on_crop_completed bgr2gray).
Abbreviation update_threshold := (update_threshold bgr2gray).
Abbreviation click_next :=
  (click_next
     (CircularityCalculator.goto_page2 findContours arcLength contourArea
        moments)).

(** The mask of a colour image: a pixel is foreground exactly when its
    gray value is at most the threshold. *)
Lemma mask_of_colour_pixel (img : cimage) (t : Z) (x y : nat) :
  pixel (threshold_binary_inv (List.map (List.map bgr2gray) img) t 255) x y
  = option_map (fun c => if bgr2gray c >? t then 0 else 255) (pixel img x y).
Proof.
  unfold threshold_binary_inv. rewrite !pixel_map.
  destruct (pixel img x y); reflexivity.
Qed.

(** A successful upload: the path and the image are stored, an earlier
    crop is forgotten, the mask is computed from the whole image with the
    current threshold (foreground where the gray value is at most the
    threshold), both buttons are enabled and [view1] shows the image;
    the records, the table and the overlay of an earlier image stay. *)
Theorem upload_image_loads (w : window) (file_path : string) (img : cimage) :
  file_path <> EmptyString ->
  imread file_path = Some img ->
  is_empty img = false ->
  exists w',
    upload_image w file_path = Done w' []
    /\ original_image_path (session_of w') = file_path
    /\ original_image (session_of w') = Some img
    /\ cropped_image (session_of w') = None
    /\ gray_image (session_of w') = Some (List.map (List.map bgr2gray) img)
    /\ binary_image (session_of w')
       = Some (threshold_binary_inv (List.map (List.map bgr2gray) img)
                 (current_threshold (session_of w)) 255)
    /\ (forall x y c,
          pixel img x y = Some c ->
          exists m,
            option_map (fun mask => pixel mask x y)
              (binary_image (session_of w')) = Some (Some m)
            /\ (foreground m = true
                <-> bgr2gray c <= current_threshold (session_of w)))
    /\ current_threshold (session_of w') = current_threshold (session_of w)
    /\ particle_data (session_of w') = particle_data (session_of w)
    /\ table (session_of w') = table (session_of w)
    /\ processed_image (session_of w') = processed_image (session_of w)
    /\ view1 w' = Some (inl img)
    /\ crop_btn w' = true
    /\ next1_btn w' = true.
Proof.
  intros Hp Hr He. unfold Page1.upload_image.
  apply String.eqb_neq in Hp. rewrite Hp, Hr.
  unfold cvtColor_BGR2GRAY. rewrite He.
  eexists. split; [reflexivity|].
  cbn -[threshold_binary_inv].
  repeat split.
  intros x y c Hc. unfold update_binary_image. cbn -[threshold_binary_inv].
  rewrite mask_of_colour_pixel, Hc. simpl. eexists. split; [reflexivity|].
  destruct (bgr2gray c >? current_threshold (session_of w)) eqn:E.
  - apply Z.gtb_lt in E. unfold foreground. simpl.
    split; [discriminate | lia].
  - pose proof (Zgt_cases (bgr2gray c) (current_threshold (session_of w))) as G.
    rewrite E in G. unfold foreground. simpl. split; [intros _; lia|reflexivity].
Qed.

(** A file that cannot be read, chosen after an image was loaded: the
    warning is shown and the image is gone, but the mask of the earlier
    image and the enabled next button stay; the next click then raises
    in [goto_page2], after the records have been emptied. *)
Theorem failed_upload_leaves_stale_mask
    (w : window) (file_path : string) (mask : gimage) :
  file_path <> EmptyString ->
  imread file_path = None ->
  binary_image (session_of w) = Some mask ->
  next1_btn w = true ->
  exists w' w'',
    upload_image w file_path
    = Done w' [Warning "错误" "无法读取选中的图像文件！"]
    /\ original_image_path (session_of w') = file_path
    /\ original_image (session_of w') = None
    /\ cropped_image (session_of w') = None
    /\ binary_image (session_of w') = Some mask
    /\ gray_image (session_of w') = gray_image (session_of w)
    /\ next1_btn w' = true
    /\ view1 w' = view1 w
    /\ click_next w' = Raised w'' "AttributeError"
    /\ particle_data (session_of w'') = []
    /\ table (session_of w'') = table (session_of w)
    /\ processed_image (session_of w'') = processed_image (session_of w).
Proof.
  intros Hp Hr Hm Hn. unfold Page1.upload_image.
  apply String.eqb_neq in Hp. rewrite Hp, Hr.
  eexists _, _. split; [reflexivity|].
  cbn [session_of original_image_path original_image cropped_image
       binary_image gray_image next1_btn view1].
  repeat (split; [first [reflexivity | assumption]|]).
  unfold Page1.click_next. cbn [next1_btn session_of]. rewrite Hn.
  unfold goto_page2. cbn [binary_image]. rewrite Hm.
  unfold target_original. cbn [cropped_image original_image].
  split; [reflexivity|]. repeat split.
Qed.

(** Moving the slider: the threshold and its label are set; if an image
    is loaded, the mask is computed anew from the crop when there is one
    and from the whole image otherwise, with the new threshold, and is
    shown in [view1]. *)
Theorem update_threshold_recomputes
    (w : window) (value : Z) (target_image : cimage) :
  target_original (session_of w) = Some target_image ->
  is_empty target_image = false ->
  exists w',
    update_threshold w value = Done w' []
    /\ current_threshold (session_of w') = value
    /\ threshold_value_label w' = str_int value
    /\ gray_image (session_of w')
       = Some (List.map (List.map bgr2gray) target_image)
    /\ binary_image (session_of w')
       = Some (threshold_binary_inv
                 (List.map (List.map bgr2gray) target_image) value 255)
    /\ view1 w'
       = Some (inr (threshold_binary_inv
                      (List.map (List.map bgr2gray) target_image) value 255))
    /\ next1_btn w' = true
    /\ original_image (session_of w') = original_image (session_of w)
    /\ cropped_image (session_of w') = cropped_image (session_of w)
    /\ (forall image, cropped_image (session_of w) = Some image ->
                      target_image = image).
Proof.
  intros Ht He. unfold Page1.update_threshold.
  assert (Ht' : target_original
                  (mkSession (original_image_path (session_of w))
                     (original_image (session_of w))
                     (cropped_image (session_of w))
                     (gray_image (session_of w))
                     (binary_image (session_of w))
                     (processed_image (session_of w))
                     (particle_data (session_of w)) value
                     (filtered_particle_data (session_of w))
                     (table (session_of w)) (view2 (session_of w))
                     (view3 (session_of w)) (current_index (session_of w)))
                = Some target_image) by exact Ht.
  rewrite Ht'. unfold cvtColor_BGR2GRAY. rewrite He.
  eexists. split; [reflexivity|].
  cbn -[threshold_binary_inv str_int]. repeat split.
  intros image Hc. unfold target_original in Ht. rewrite Hc in Ht.
  congruence.
Qed.

(** Only the last slider value counts: after any slider move that was
    handled, a further move gives the window that the further move alone
    would give. *)
Theorem update_threshold_last_wins (w w1 : window) (value1 value2 : Z) :
  update_threshold w value1 = Done w1 [] ->
  update_threshold w1 value2 = update_threshold w value2.
Proof.
  unfold Page1.update_threshold.
  assert (Ht : forall v,
             target_original
               (mkSession (original_image_path (session_of w))
                  (original_image (session_of w))
                  (cropped_image (session_of w))
                  (gray_image (session_of w))
                  (binary_image (session_of w))
                  (processed_image (session_of w))
                  (particle_data (session_of w)) v
                  (filtered_particle_data (session_of w))
                  (table (session_of w)) (view2 (session_of w))
                  (view3 (session_of w)) (current_index (session_of w)))
             = target_original (session_of w)) by reflexivity.
  rewrite !Ht.
  destruct (target_original (session_of w)) as [img|] eqn:Hi.
  - destruct (cvtColor_BGR2GRAY bgr2gray img) as [g|] eqn:Hg;
      [|discriminate].
    intros H. injection H as <-.
    unfold show_mask, update_binary_image, target_original in *.
    cbn -[threshold_binary_inv str_int].
    rewrite Hi. rewrite Hg. reflexivity.
  - intros H. injection H as <-.
    unfold target_original in *. cbn -[str_int]. rewrite Hi.
    reflexivity.
Qed.

(** A committed crop reaches the window: for a mapped rectangle that
    lies in the image and is not empty, [on_confirm_crop] emits the crop
    and the slot [on_crop_completed] stores it and computes the mask from
    it, so that the mask has the size of the rectangle and its pixel
    (x, y) is decided by the pixel (x + left, y + top) of the original
    image. *)
Theorem crop_commit_reaches_window
    (w : window) (d : ImageCropDialog.dialog) (img : cimage)
    (preview : Z * Z) (x0 y0 x1 y1 : Z) :
  ImageCropDialog.original_image d = Some img ->
  ImageCropDialog.scaled_qt_img d = Some preview ->
  rectangular img ->
  ImageCropDialog.mapped_rect d = (x0, y0, x1, y1) ->
  0 <= x0 < x1 -> x1 <= shape_w img ->
  0 <= y0 < y1 -> y1 <= shape_h img ->
  exists c w' mask,
    ImageCropDialog.on_confirm_crop d
    = Done (ImageCropDialog.set_cropped_image c d)
        [Emit c; Information "提示" "剪裁成功"; Accept]
    /\ on_crop_completed w c = Done w' []
    /\ cropped_image (session_of w') = Some c
    /\ original_image (session_of w') = original_image (session_of w)
    /\ binary_image (session_of w') = Some mask
    /\ view1 w' = Some (inr mask)
    /\ next1_btn w' = true
    /\ shape_h mask = y1 - y0
    /\ shape_w mask = x1 - x0
    /\ forall x y : nat,
        Z.of_nat x < x1 - x0 -> Z.of_nat y < y1 - y0 ->
        pixel mask x y
        = option_map
            (fun c => if bgr2gray c >? current_threshold (session_of w)
                      then 0 else 255)
            (pixel img (x + Z.to_nat x0) (y + Z.to_nat y0)).
Proof.
  intros Ho Hs Hrect Hmap Hx Hx1 Hy Hy1.
  destruct (crop_in_range img y0 y1 x0 x1 Hrect
              ltac:(lia) Hy1 ltac:(lia) Hx1) as (Hh & Hrows & Hpix).
  set (c := crop img y0 y1 x0 x1) in *.
  assert (Hc : ImageCropDialog.on_confirm_crop d
               = Done (ImageCropDialog.set_cropped_image c d)
                   [Emit c; Information "提示" "剪裁成功"; Accept]).
  { unfold ImageCropDialog.on_confirm_crop. rewrite Ho, Hs, Hmap.
    destruct (x0 <? 0) eqn:E1; [apply Z.ltb_lt in E1; lia|].
    destruct (y0 <? 0) eqn:E2; [apply Z.ltb_lt in E2; lia|].
    destruct (x1 >? shape_w img) eqn:E3; [apply Z.gtb_lt in E3; lia|].
    destruct (y1 >? shape_h img) eqn:E4; [apply Z.gtb_lt in E4; lia|].
    reflexivity. }
  assert (Hw : shape_w c = x1 - x0).
  { destruct c as [|row rest] eqn:Ec.
    - unfold shape_h in Hh. simpl in Hh. lia.
    - inversion Hrows. subst. simpl. assumption. }
  assert (He : is_empty c = false).
  { unfold is_empty. rewrite Hh, Hw.
    destruct (y1 - y0 =? 0) eqn:E1; [apply Z.eqb_eq in E1; lia|].
    destruct (x1 - x0 =? 0) eqn:E2; [apply Z.eqb_eq in E2; lia|].
    reflexivity. }
  assert (Hrun : Page1.on_crop_completed bgr2gray w c
                 = Done (show_mask w
                           (set_gray_image (List.map (List.map bgr2gray) c)
                              (mkSession
                                 (original_image_path (session_of w))
                                 (original_image (session_of w)) (Some c)
                                 (gray_image (session_of w))
                                 (binary_image (session_of w))
                                 (processed_image (session_of w))
                                 (particle_data (session_of w))
                                 (current_threshold (session_of w))
                                 (filtered_particle_data (session_of w))
                                 (table (session_of w))
                                 (view2 (session_of w))
                                 (view3 (session_of w))
                                 (current_index (session_of w))))
                           (current_threshold (session_of w))
                           (threshold_value_label w)) []).
  { unfold Page1.on_crop_completed, cvtColor_BGR2GRAY. rewrite He.
    reflexivity. }
  exists c. eexists. eexists. split; [exact Hc|].
  split; [exact Hrun|]. unfold show_mask, update_binary_image.
  cbn -[threshold_binary_inv c].
  split; [reflexivity|]. split; [reflexivity|]. split; [reflexivity|].
  split; [reflexivity|]. split; [reflexivity|].
  split; [|split].
  - unfold shape_h, threshold_binary_inv in *. rewrite !length_map. exact Hh.
  - unfold threshold_binary_inv. destruct c as [|row rest]; simpl in *;
      [assumption|]. rewrite !length_map. exact Hw.
  - intros x y Hx' Hy'. rewrite mask_of_colour_pixel. rewrite Hpix by assumption.
    reflexivity.
Qed.

(** A crop without pixels (no rows or no columns) is stored as the crop,
    then [cv2.cvtColor] raises: the mask stays that of the image before
    the crop, and every later slider move raises as well, with the
    threshold changed and the mask not. *)
Theorem empty_crop_raises (w : window) (c : cimage) (value : Z) :
  is_empty c = true ->
  exists w' w'',
    on_crop_completed w c = Raised w' "cv2.error"
    /\ cropped_image (session_of w') = Some c
    /\ binary_image (session_of w') = binary_image (session_of w)
    /\ gray_image (session_of w') = gray_image (session_of w)
    /\ view1 w' = view1 w
    /\ update_threshold w' value = Raised w'' "cv2.error"
    /\ current_threshold (session_of w'') = value
    /\ binary_image (session_of w'') = binary_image (session_of w).
Proof.
  intros He. unfold Page1.on_crop_completed, cvtColor_BGR2GRAY. rewrite He.
  eexists _, _. split; [reflexivity|].
  cbn [session_of cropped_image binary_image gray_image view1].
  repeat (split; [reflexivity|]).
  unfold Page1.update_threshold, target_original.
  cbn [session_of cropped_image]. unfold cvtColor_BGR2GRAY. rewrite He.
  split; [reflexivity|]. split; reflexivity.
Qed.

End Page1Facts.

(** ** Saving *)

Section SavingFacts.

Import CircularityCalculator Saving OsPath.

Local Open Scope string_scope.

(** The CSV export writes its file only when it can: it never changes the
    window and never raises; a file is written exactly when the filter
    has run, an image path is set and a path was chosen, and then it is
    the one file at the chosen path; without filtered data or without an
    image path the warning is shown, and a cancelled dialog does nothing
    at all. *)
Theorem save_processed_csv_only_when_ready
    (str_float : Q -> string) (s : session) (save_path : string) :
  exists ui,
    save_processed_csv str_float s save_path = Done s ui
    /\ ((exists path content, In (WriteFile path content) ui)
        <-> filtered_particle_data s <> None
            /\ original_image_path s <> EmptyString
            /\ save_path <> EmptyString)
    /\ (forall path content,
          In (WriteFile path content) ui ->
          path = save_path
          /\ exists data,
               filtered_particle_data s = Some data
               /\ content = csv_bytes str_float data)
    /\ (filtered_particle_data s = None
        \/ original_image_path s = EmptyString ->
        ui = [Warning "错误" "没有可保存的颗粒数据！"])
    /\ (filtered_particle_data s <> None ->
        original_image_path s <> EmptyString ->
        save_path = EmptyString -> ui = []).
Proof.
  unfold save_processed_csv.
  destruct (filtered_particle_data s) as [data|].
  - destruct (String.eqb_spec (original_image_path s) EmptyString) as [Ep|Ep].
    + eexists. split; [reflexivity|]. split; [|split; [|split]].
      * split; [intros (p & c & [H|[]]); discriminate | tauto].
      * intros p c [H|[]]. discriminate.
      * reflexivity.
      * tauto.
    + destruct (String.eqb_spec save_path EmptyString) as [Es|Es].
      * eexists. split; [reflexivity|]. split; [|split; [|split]].
        -- split; [intros (p & c & []) | tauto].
        -- intros p c [].
        -- intros [H|H]; [discriminate | contradiction].
        -- reflexivity.
      * eexists. split; [reflexivity|]. split; [|split; [|split]].
        -- split; [intros _; repeat split; (discriminate || assumption)|].
           intros _. eexists _, _. left. reflexivity.
        -- intros p c [H|[H|[]]]; [|discriminate].
           injection H as <- <-. split; [reflexivity|].
           exists data. split; reflexivity.
        -- intros [H|H]; [discriminate | contradiction].
        -- intros _ _ H. contradiction.
  - eexists. split; [reflexivity|]. split; [|split; [|split]].
    + split; [intros (p & c & [H|[]]); discriminate|].
      intros [H _]. contradiction.
    + intros p c [H|[]]. discriminate.
    + reflexivity.
    + intros H. contradiction.
Qed.


Lemma append_empty_r (s : string) : s ++ EmptyString = s.
Proof.
  induction s as [|a s IH]; simpl; [reflexivity|]. f_equal. exact IH.
Qed.

Lemma rfind_range (c : ascii) (s : string) :
  (-1 <= rfind c s < Z.of_nat (String.length s))%Z.
Proof.
  induction s as [|a s IH]; simpl; [lia|].
  destruct (0 <=? rfind c s)%Z eqn:E; [lia|].
  destruct (Ascii.eqb a c); lia.
Qed.

Lemma substring_all (t : string) : substring 0 (String.length t) t = t.
Proof.
  induction t as [|b t IH]; simpl; [reflexivity|]. f_equal. exact IH.
Qed.

Lemma prefix_suffix (s : string) :
  forall n : nat,
    (n <= String.length s)%nat ->
    substring 0 n s ++ substring n (String.length s - n) s = s.
Proof.
  induction s as [|a s IH]; intros [|n] Hn; simpl in *; try lia.
  - reflexivity.
  - f_equal. apply substring_all.
  - f_equal. apply IH. lia.
Qed.

(** The part of [s] from the last [c] on starts with [c] and has no
    further [c]. *)
Lemma suffix_at_rfind (c : ascii) (s : string) :
  (0 <= rfind c s)%Z ->
  exists rest,
    suffix (rfind c s) s = String c rest /\ rfind c rest = (-1)%Z.
Proof.
  unfold suffix. induction s as [|a s IH]; simpl; [lia|].
  destruct (0 <=? rfind c s)%Z eqn:E.
  - intros _. apply Z.leb_le in E. destruct (IH E) as (rest & H1 & H2).
    exists rest. split; [|exact H2].
    replace (Z.to_nat (rfind c s + 1)) with (S (Z.to_nat (rfind c s))) by lia.
    simpl. exact H1.
  - apply Z.leb_gt in E. destruct (Ascii.eqb_spec a c) as [->|Hne]; [|lia].
    intros _. exists s. simpl. split.
    + f_equal. apply substring_all.
    + pose proof (rfind_range c s). lia.
Qed.

Lemma substring_tail (c : ascii) (t : string) :
  forall (n : nat) (r : string),
    substring n (String.length t - n) t = String c r ->
    substring (S n) (String.length t - S n) t = r.
Proof.
  induction t as [|b t IHt]; intros [|n] r; simpl.
  - discriminate.
  - discriminate.
  - intros E. injection E as _ E.
    rewrite Nat.sub_0_r. rewrite substring_all in *. exact E.
  - intros E. apply IHt in E. exact E.
Qed.

(** After the last [c] there is no [c]. *)
Lemma suffix_after_rfind (c : ascii) (s : string) :
  rfind c (suffix (rfind c s + 1) s) = (-1)%Z.
Proof.
  destruct (Z.le_gt_cases 0 (rfind c s)) as [H|H].
  - destruct (suffix_at_rfind c s H) as (rest & H1 & H2).
    unfold suffix in *.
    replace (Z.to_nat (rfind c s + 1)) with (S (Z.to_nat (rfind c s))) by lia.
    rewrite (substring_tail c s _ rest H1). exact H2.
  - pose proof (rfind_range c s).
    assert (E : rfind c s = (-1)%Z) by lia. rewrite E. unfold suffix. simpl.
    rewrite Nat.sub_0_r, substring_all. exact E.
Qed.

(** [splitext] loses nothing, and the extension is empty or is a dot
    followed by text without a dot. *)
Lemma splitext_parts (p : string) :
  fst (splitext p) ++ snd (splitext p) = p
  /\ (snd (splitext p) = EmptyString
      \/ exists rest,
           snd (splitext p) = String "." rest /\ rfind "." rest = (-1)%Z).
Proof.
  unfold splitext.
  destruct ((rfind "/" p <? rfind "." p)%Z
            && non_dot_in p (Z.to_nat (rfind "/" p + 1))
                 (Z.to_nat (rfind "." p - (rfind "/" p + 1)))) eqn:E;
    simpl; [|split; [apply append_empty_r | left; reflexivity]].
  - apply andb_true_iff in E. destruct E as [E _]. apply Z.ltb_lt in E.
    pose proof (rfind_range "/" p). pose proof (rfind_range "." p).
    split.
    + unfold prefix, suffix. apply prefix_suffix. lia.
    + right. apply suffix_at_rfind. lia.
Qed.

(** The names proposed in the save dialogs come from the uploaded file:
    its name (the part of the path after the last slash, which contains
    no slash) is split into stem and extension without loss, the
    extension being empty or a dot followed by text without a dot; the
    image is proposed as stem, "_processed" and the same extension, the
    CSV file as stem and "_processed.csv", both in the directory of the
    upload. *)
Theorem proposed_paths_keep_stem_and_extension (s : session) :
  exists dir_name file_name file_base file_ext,
    split (original_image_path s) = (dir_name, file_name)
    /\ rfind "/" file_name = (-1)%Z
    /\ file_base ++ file_ext = file_name
    /\ (file_ext = EmptyString
        \/ exists rest,
             file_ext = String "." rest /\ rfind "." rest = (-1)%Z)
    /\ proposed_image_path s
       = join dir_name (file_base ++ "_processed" ++ file_ext)
    /\ proposed_csv_path s
       = join dir_name (file_base ++ "_processed.csv").
Proof.
  unfold proposed_image_path, proposed_csv_path.
  destruct (split (original_image_path s)) as [dir_name file_name] eqn:Hsp.
  destruct (splitext file_name) as [file_base file_ext] eqn:Hse.
  exists dir_name, file_name, file_base, file_ext.
  destruct (splitext_parts file_name) as [H1 H2]. rewrite Hse in H1, H2.
  simpl in H1, H2.
  split; [reflexivity|]. split; [|repeat split; assumption].
  unfold split in Hsp. injection Hsp as _ <-. apply suffix_after_rfind.
Qed.

End SavingFacts.

(** ** The further properties on the samples *)

Section MoreOnSamples.

Import CircularityCalculator Samples MoreSamples.


Lemma draw_crop_rect_shades_outside_once_witness :
  CropRegion.crop_inv wide_dialog
  /\ exists shaded border,
      CropDrawing._draw_crop_rect wide_dialog = Some (shaded, border)
      /\ forall px py,
          0 <= px < 720 -> 0 <= py < 540 ->
          CropDrawing.shade_count shaded px py
          = if CropDrawing.fills border px py then 0%nat else 1%nat.
Proof.
  split; [exact wide_dialog_crop_inv|].
  destruct (draw_crop_rect_shades_outside_once wide_dialog wide_dialog_crop_inv)
    as (shaded & border & w & h & Hs & Hd & _ & Hcount).
  exists shaded, border. split; [exact Hd|].
  assert (E : (w, h) = (720, 540)).
  { assert (ImageCropDialog.scaled_qt_img wide_dialog = Some (720, 540))
      by (vm_compute; reflexivity).
    congruence. }
  injection E as -> ->. exact Hcount.
Defined.

Lemma idle_move_keeps_rectangle_witness :
  exists d',
    ImageCropDialog.on_mouse_move wide_dialog 400 300 = Some d'
    /\ forall e,
        CropRegion.edge_coord d' e = CropRegion.edge_coord wide_dialog e.
Proof.
  eexists. split; [vm_compute; reflexivity|].
  apply (idle_move_keeps_rectangle wide_dialog _ 400 300 370 300);
    vm_compute; reflexivity.
Defined.

Lemma release_ends_drag_witness :
  exists d',
    ImageCropDialog.run
      (ImageCropDialog.on_mouse_release wide_dialog ImageCropDialog.LeftButton)
      [ImageCropDialog.Move 60 300; ImageCropDialog.Move 400 30] = Some d'
    /\ (forall e,
          CropRegion.edge_coord d' e = CropRegion.edge_coord wide_dialog e)
    /\ ImageCropDialog.is_dragging d' = false.
Proof.
  eexists. split; [vm_compute; reflexivity|].
  apply (release_ends_drag wide_dialog _
           [ImageCropDialog.Move 60 300; ImageCropDialog.Move 400 30]);
    vm_compute; reflexivity.
Defined.

Lemma on_mouse_move_idempotent_witness :
  ImageCropDialog.on_mouse_move pressed 130 300 = Some dragged
  /\ ImageCropDialog.is_dragging pressed = true
  /\ ImageCropDialog.crop_left dragged = 100
  /\ ImageCropDialog.on_mouse_move dragged 130 300 = Some dragged.
Proof.
  assert (H : ImageCropDialog.on_mouse_move pressed 130 300 = Some dragged)
    by (vm_compute; reflexivity).
  split; [exact H|]. split; [vm_compute; reflexivity|].
  split; [vm_compute; reflexivity|].
  exact (on_mouse_move_idempotent pressed dragged 130 300 H).
Defined.

Lemma on_reset_restores_first_display_witness :
  exists d3,
    ImageCropDialog.on_reset label_size keep_aspect edited = Done d3 []
    /\ (forall e, CropRegion.edge_coord d3 e = CropRegion.edge_coord displayed e)
    /\ ImageCropDialog.crop_left edited = 100
    /\ ImageCropDialog.crop_left d3 = 20.
Proof.
  destruct (on_reset_restores_first_display label_size keep_aspect
              (ImageCropDialog.init (Some (black 8 6))) displayed edited
              (black 8 6) drag_left_edge)
    as (d3 & Hr & He & _).
  - reflexivity.
  - vm_compute. reflexivity.
  - vm_compute. reflexivity.
  - exists d3. split; [exact Hr|]. split; [exact He|].
    split; [vm_compute; reflexivity|].
    change (CropRegion.edge_coord d3 ImageCropDialog.DragLeft = 20).
    rewrite (He ImageCropDialog.DragLeft). vm_compute. reflexivity.
Defined.

Lemma black_rectangular (w h : nat) : rectangular (black w h).
Proof.
  unfold rectangular, black. apply Forall_forall. intros row Hin.
  destruct h as [|h]; [contradiction|].
  apply repeat_spec in Hin. subst row. reflexivity.
Qed.

Lemma confirm_after_edits_succeeds_witness :
  exists c,
    ImageCropDialog.mapped_rect edited = (1, 0, 7, 5)
    /\ ImageCropDialog.on_confirm_crop edited
       = Done (ImageCropDialog.set_cropped_image c edited)
           [Emit c; Information "提示" "剪裁成功"; Accept]
    /\ shape_h c = 5.
Proof.
  destruct (confirm_after_edits_succeeds label_size keep_aspect
              (ImageCropDialog.init (Some (black 8 6))) displayed edited
              (black 8 6) 720 540 drag_left_edge)
    as (x0 & y0 & x1 & y1 & c & Hmap & _ & _ & _ & _ & Hc & Hh & _).
  - reflexivity.
  - apply black_rectangular.
  - vm_compute. reflexivity.
  - lia.
  - lia.
  - vm_compute. reflexivity.
  - vm_compute. reflexivity.
  - assert (E : ImageCropDialog.mapped_rect edited = (1, 0, 7, 5))
      by (vm_compute; reflexivity).
    rewrite E in Hmap. injection Hmap as <- <- <- <-.
    exists c. repeat split; assumption.
Defined.

Lemma goto_page2_again_witness :
  sample_goto_page2 [dot; square] uploaded = Done analysed []
  /\ sample_goto_page2 [dot; square] analysed = Done analysed [].
Proof.
  assert (H : sample_goto_page2 [dot; square] uploaded = Done analysed [])
    by (vm_compute; reflexivity).
  split; [exact H|].
  exact (goto_page2_again (traced [dot; square]) polyline_length polygon_area
           polygon_moments uploaded analysed H).
Defined.

Lemma filter_particles_not_cumulative_witness :
  exists s1,
    sample_filter_particles [dot; square] analysed "5" = Done s1 []
    /\ table s1 = []
    /\ sample_filter_particles [dot; square] s1 "0"
       = sample_filter_particles [dot; square] analysed "0".
Proof.
  eexists. split; [vm_compute; reflexivity|].
  split; [vm_compute; reflexivity|].
  apply (filter_particles_not_cumulative (traced [dot; square])
           polyline_length polygon_area polygon_moments analysed _ "5" "0"
           (PFin 0)); vm_compute; reflexivity.
Defined.

Lemma filtered_table_indices_increasing_witness :
  StronglySorted Z.lt (List.map index (table filtered))
  /\ filtered_particle_data filtered = Some (table filtered)
  /\ (forall p, In p (table filtered) -> In p (particle_data analysed))
  /\ particle_data filtered = particle_data analysed.
Proof.
  apply (filtered_table_indices_increasing (traced [dot; square])
           polyline_length polygon_area polygon_moments uploaded analysed
           filtered "0"); vm_compute; reflexivity.
Defined.

Lemma filter_particles_monotone_witness :
  ((1 # 2) <= inject_Z 4)%Q
  /\ forall p,
      In p (table (after (sample_filter_particles [dot; square] analysed "4")))
      -> In p (table (after (sample_filter_particles [dot; square] analysed
                               "0.5"))).
Proof.
  split; [vm_compute; discriminate|].
  destruct (filter_particles_monotone (traced [dot; square])
              polyline_length polygon_area polygon_moments analysed
              (after (sample_filter_particles [dot; square] analysed "0.5"))
              (after (sample_filter_particles [dot; square] analysed "4"))
              "0.5" "4" (1 # 2) (inject_Z 4)) as [H _].
  - vm_compute. reflexivity.
  - vm_compute. reflexivity.
  - vm_compute. discriminate.
  - vm_compute. reflexivity.
  - vm_compute. reflexivity.
  - exact H.
Defined.


Lemma upload_image_loads_witness :
  exists w',
    Page1.upload_image disk luminance started "sand.png" = Done w' []
    /\ binary_image (Page1.session_of w')
       = Some (threshold_binary_inv sand_gray 160 255)
    /\ Page1.next1_btn w' = true.
Proof.
  destruct (upload_image_loads disk luminance started "sand.png" sand)
    as (w' & Hu & _ & _ & _ & _ & Hb & _ & _ & _ & _ & _ & _ & _ & Hn).
  - discriminate.
  - reflexivity.
  - reflexivity.
  - exists w'. split; [exact Hu|]. split; [|exact Hn].
    rewrite Hb. vm_compute. reflexivity.
Defined.

Lemma failed_upload_leaves_stale_mask_witness :
  exists w' w'',
    Page1.upload_image disk luminance loaded "missing.png"
    = Done w' [Warning "错误" "无法读取选中的图像文件！"]
    /\ original_image (Page1.session_of w') = None
    /\ binary_image (Page1.session_of w')
       = Some (threshold_binary_inv sand_gray 160 255)
    /\ Page1.click_next (sample_goto_page2 [dot; square]) w'
       = Raised w'' "AttributeError".
Proof.
  destruct (failed_upload_leaves_stale_mask disk luminance
              (traced [dot; square]) polyline_length polygon_area
              polygon_moments loaded "missing.png"
              (threshold_binary_inv sand_gray 160 255))
    as (w' & w'' & Hu & _ & Ho & _ & Hb & _ & _ & _ & Hn & _).
  - discriminate.
  - reflexivity.
  - vm_compute. reflexivity.
  - vm_compute. reflexivity.
  - exists w', w''. repeat split; assumption.
Defined.

Lemma update_threshold_recomputes_witness :
  exists w',
    Page1.update_threshold luminance loaded 0 = Done w' []
    /\ current_threshold (Page1.session_of w') = 0
    /\ binary_image (Page1.session_of w')
       = Some (threshold_binary_inv sand_gray 0 255).
Proof.
  destruct (update_threshold_recomputes luminance loaded 0 sand)
    as (w' & Hu & Ht & _ & _ & Hb & _).
  - vm_compute. reflexivity.
  - reflexivity.
  - exists w'. split; [exact Hu|]. split; [exact Ht|].
    rewrite Hb. vm_compute. reflexivity.
Defined.

Lemma update_threshold_last_wins_witness :
  exists w1,
    Page1.update_threshold luminance loaded 200 = Done w1 []
    /\ Page1.update_threshold luminance w1 90
       = Page1.update_threshold luminance loaded 90.
Proof.
  eexists. split; [vm_compute; reflexivity|].
  apply (update_threshold_last_wins luminance loaded _ 200 90).
  vm_compute. reflexivity.
Defined.

Lemma crop_commit_reaches_window_witness :
  exists c w' mask,
    ImageCropDialog.on_confirm_crop edited
    = Done (ImageCropDialog.set_cropped_image c edited)
        [Emit c; Information "提示" "剪裁成功"; Accept]
    /\ Page1.on_crop_completed luminance started c = Done w' []
    /\ binary_image (Page1.session_of w') = Some mask
    /\ shape_h mask = 5
    /\ shape_w mask = 6.
Proof.
  destruct (crop_commit_reaches_window luminance started edited (black 8 6)
              (720, 540) 1 0 7 5)
    as (c & w' & mask & Hc & Hw & _ & _ & Hb & _ & _ & Hh & Hwd & _).
  - reflexivity.
  - reflexivity.
  - apply black_rectangular.
  - vm_compute. reflexivity.
  - lia.
  - vm_compute. discriminate.
  - lia.
  - vm_compute. discriminate.
  - exists c, w', mask. repeat split; assumption.
Defined.

Lemma empty_crop_raises_witness :
  exists w' w'',
    Page1.on_crop_completed luminance loaded (repeat [] 555)
    = Raised w' "cv2.error"
    /\ binary_image (Page1.session_of w')
       = binary_image (Page1.session_of loaded)
    /\ Page1.update_threshold luminance w' 90 = Raised w'' "cv2.error".
Proof.
  destruct (empty_crop_raises luminance loaded (repeat [] 555) 90)
    as (w' & w'' & Hc & _ & Hb & _ & _ & Hu & _).
  - reflexivity.
  - exists w', w''. repeat split; assumption.
Defined.

End MoreOnSamples.
